(** * Red-zone intrusion monitor (yolo_camera.py)

    A shallow embedding of the frame loop of [yolo_camera.py]: the per-box
    zone filter, the entry/exit logic driven by [alert_active], the JSON
    lines appended to [yolo_redzone_log.txt], and the exits of the loop.

    Python values are modelled as follows.
    - [int] is [Z]; [//] is floor division, [Z.div].
    - [float] is the binary64 type [PrimFloat.float]; [<] is [PrimFloat.ltb].
    - [str] is [string], one [ascii] per code point below 256.
    - the dictionaries of the script have fixed keys; they become records, or
      [JObject] association lists where they are handed to [json.dumps].
    - what the script reads from the outside world in one pass of the loop
      (camera, detector, clock, file system, keyboard) is a [Tick]; what it
      does to the outside world is a list of [effect]s.
    Drawing and window calls do not influence the filter, the state or the
    log and are left out. The script catches no exception; the one the
    model follows is the [OSError] of a log that cannot be written.

    The file has three parts: the definitions; the properties, proved for
    every [round], [repr] and [float] the interpreter might provide; and
    the model run on sample frames, with executable versions of the three
    built-ins. *)

From Stdlib Require Import ZArith NArith List String Ascii Bool Lia.
From Stdlib Require Import Floats Uint63 DecimalString DecimalZ.
Import ListNotations.

Local Open Scope string_scope.
Local Open Scope Z_scope.
Local Open Scope bool_scope.

(** ** Configuration *)

Record Zone : Set := mkZone { zx1 : Z; zy1 : Z; zx2 : Z; zy2 : Z }.

Record Config : Set := mkConfig { threshold : float; zone : Zone }.

(** [CONFIDENCE_THRESHOLD = 0.6], the binary64 number nearest to 0.6. *)
Definition CONFIDENCE_THRESHOLD : float := 0x1.3333333333333p-1%float.

Definition RED_ZONE : Zone := mkZone 200 150 450 350.

(** The two module-level constants the loop reads. *)
Definition settings : Config := mkConfig CONFIDENCE_THRESHOLD RED_ZONE.

(** ** Clock readings and [strftime] *)

Record datetime : Set :=
  mkTime { year : N; month : N; day : N; hour : N; minute : N; second : N }.

Definition digit_char (n : N) : ascii := ascii_of_N (48 + n mod 10).

Definition two_digits (n : N) : string :=
  String (digit_char (n / 10)) (String (digit_char n) "").

Definition four_digits (n : N) : string :=
  two_digits (n / 100) ++ two_digits n.

(** [t.strftime("%Y-%m-%d %H:%M:%S")] *)
Definition strftime_date_time (t : datetime) : string :=
  four_digits (year t) ++ "-" ++ two_digits (month t) ++ "-" ++ two_digits (day t)
  ++ " " ++ two_digits (hour t) ++ ":" ++ two_digits (minute t) ++ ":"
  ++ two_digits (second t).

(** [t.strftime('%H%M%S')] *)
Definition strftime_HMS (t : datetime) : string :=
  two_digits (hour t) ++ two_digits (minute t) ++ two_digits (second t).

(** ** Detector output *)

(** One element of [r.boxes], after [map(int, box.xyxy[0])],
    [float(box.conf[0])] and [model.names[int(box.cls[0])]]; [seen] is
    the value of [datetime.now()] read while the box is visited. *)
Record Box : Set :=
  mkBox { xyxy : Z * Z * Z * Z; conf : float; label : string; seen : datetime }.

(** An element of [detections_in_zone]: the dictionary with the keys
    name, confidence, timestamp and coords. *)
Record ZoneHit : Set :=
  mkHit { name : string; confidence : float; timestamp : string;
          coords : Z * Z * Z * Z }.

(** ** JSON values and text *)

#[warnings="-register-all"]
Inductive json : Set :=
| JInt (z : Z)
| JFloat (x : float)
| JString (s : string)
| JArray (items : list json)
| JObject (members : list (string * json)).

Definition dquote : ascii := "034"%char.
Definition backslash : ascii := "092"%char.
Definition newline : ascii := "010"%char.

Definition hex_char (n : N) : ascii :=
  if (n <? 10)%N then ascii_of_N (48 + n) else ascii_of_N (87 + n).

(** The replacement [json.dumps] makes for one character of a string
    (ensure_ascii): the short escapes, and a u-escape with four lower-case
    hexadecimal digits for everything outside the range from space to tilde. *)
Definition escape_char (c : ascii) : string :=
  let n := N_of_ascii c in
  if (c =? dquote)%char then String backslash (String dquote "")
  else if (c =? backslash)%char then String backslash (String backslash "")
  else if (n =? 10)%N then String backslash "n"
  else if (n =? 13)%N then String backslash "r"
  else if (n =? 9)%N then String backslash "t"
  else if (n =? 8)%N then String backslash "b"
  else if (n =? 12)%N then String backslash "f"
  else if ((32 <=? n) && (n <=? 126))%N then String c ""
  else String backslash
         ("u00" ++ String (hex_char (n / 16)) (String (hex_char (n mod 16)) "")).

Fixpoint escape (s : string) : string :=
  match s with
  | EmptyString => EmptyString
  | String c r => escape_char c ++ escape r
  end.

Definition quote (s : string) : string :=
  String dquote (escape s ++ String dquote "").

(** Decimal text of a Python [int]. *)
Definition int_text (z : Z) : string := NilZero.string_of_int (Z.to_int z).

Definition int_of_text (s : string) : option Z :=
  option_map Z.of_int (NilZero.int_of_string s).

(** *** Reading JSON text back *)

Definition is_space (c : ascii) : bool :=
  ((c =? " ") || (c =? "009") || (c =? "010") || (c =? "013"))%char.

Fixpoint skip_ws (s : string) : string :=
  match s with
  | String c r => if is_space c then skip_ws r else s
  | EmptyString => EmptyString
  end.

Definition is_digit (c : ascii) : bool :=
  let n := N_of_ascii c in ((48 <=? n) && (n <=? 57))%N.

(** The characters a JSON number is made of. *)
Definition is_number_char (c : ascii) : bool :=
  (is_digit c || (c =? "-") || (c =? "+") || (c =? ".") || (c =? "e") || (c =? "E"))%char.

(** A number with a fraction or an exponent is read as a [float],
    any other as an [int]. *)
Definition is_float_mark (c : ascii) : bool :=
  ((c =? ".") || (c =? "e") || (c =? "E"))%char.

Fixpoint all_chars (p : ascii -> bool) (s : string) : bool :=
  match s with
  | EmptyString => true
  | String c r => p c && all_chars p r
  end.

Fixpoint any_char (p : ascii -> bool) (s : string) : bool :=
  match s with
  | EmptyString => false
  | String c r => p c || any_char p r
  end.

(** The longest prefix made of number characters, and what follows it. *)
Fixpoint span_number (s : string) : string * string :=
  match s with
  | String c r =>
      if is_number_char c
      then let (tok, rest) := span_number r in (String c tok, rest)
      else (EmptyString, s)
  | EmptyString => (EmptyString, EmptyString)
  end.

Definition hex_value (c : ascii) : option N :=
  let n := N_of_ascii c in
  if ((48 <=? n) && (n <=? 57))%N then Some (n - 48)%N
  else if ((97 <=? n) && (n <=? 102))%N then Some (n - 87)%N
  else if ((65 <=? n) && (n <=? 70))%N then Some (n - 55)%N
  else None.

(** The code point of a u-escape, when it is below 256. *)
Definition hex4 (h1 h2 h3 h4 : ascii) : option ascii :=
  match hex_value h1, hex_value h2, hex_value h3, hex_value h4 with
  | Some a, Some b, Some c, Some d =>
      if ((a =? 0) && (b =? 0))%N then Some (ascii_of_N (16 * c + d)) else None
  | _, _, _, _ => None
  end.

Definition unescape (e : ascii) : option ascii :=
  if (e =? dquote)%char then Some dquote
  else if (e =? backslash)%char then Some backslash
  else if (e =? "/")%char then Some "/"%char
  else if (e =? "n")%char then Some "010"%char
  else if (e =? "r")%char then Some "013"%char
  else if (e =? "t")%char then Some "009"%char
  else if (e =? "b")%char then Some "008"%char
  else if (e =? "f")%char then Some "012"%char
  else None.

Definition push (c : ascii) (r : option (string * string)) : option (string * string) :=
  match r with
  | Some (s, rest) => Some (String c s, rest)
  | None => None
  end.

(** The body of a string, after its opening quote: the decoded string and
    the text after the closing quote. *)
Fixpoint scan_string (s : string) : option (string * string) :=
  match s with
  | EmptyString => None
  | String c r =>
      if (c =? dquote)%char then Some (EmptyString, r)
      else if (c =? backslash)%char then
        match r with
        | String e r1 =>
            if (e =? "u")%char then
              match r1 with
              | String h1 (String h2 (String h3 (String h4 r2))) =>
                  match hex4 h1 h2 h3 h4 with
                  | Some a => push a (scan_string r2)
                  | None => None
                  end
              | _ => None
              end
            else
              match unescape e with
              | Some a => push a (scan_string r1)
              | None => None
              end
        | EmptyString => None
        end
      else if (N_of_ascii c <? 32)%N then None
      else push c (scan_string r)
  end.

(** ** The frame loop: state, inputs and effects *)

(** The three module-level variables the loop assigns. *)
Record State : Set :=
  mkState { object_in_zone : bool; alert_active : bool; cleared_printed : bool }.

Definition initial : State := mkState false false true.

(** What one pass of the loop reads from outside the program. *)
Record Tick : Set :=
  mkTick { ret : bool;                 (* first component of [cap.read()] *)
           results : list (list Box);  (* [model(frame, verbose=False)] *)
           now : datetime;             (* [datetime.now()] in the entry/exit branch *)
           log_ok : bool;              (* [open] and [f.write] on the log succeed *)
           snap_ok : bool;             (* value returned by [cv2.imwrite] *)
           key : Z }.                  (* value returned by [cv2.waitKey(1)] *)

Inductive effect : Set :=
| Print (msg : string)
| LogAppend (record : json)   (* [log_line record] appended to yolo_redzone_log.txt *)
| ImWrite (path : string)     (* [cv2.imwrite(path, frame)] *)
| Release                     (* [cap.release()] *)
| DestroyAllWindows.

(** How one pass of the loop body ends: it falls through to the next pass,
    leaves the loop by [break], or is left by the [OSError] that [open] or
    [f.write] raised and nothing catches. *)
Inductive control : Set := Next | Break | Raise.

(** Where the program stands once the given ticks are used up. *)
Inductive status : Set :=
| Running   (* still inside [while True], waiting for the next frame *)
| Exited    (* the loop was left by [break] *)
| Crashed.  (* an exception left the program *)

(** The two kinds of record the log holds. *)
Inductive event_kind : Set := ENTER | LEAVE.

(** ** An executable reading of the float built-ins

    [round_decimal], [repr_decimal] and [float_of_decimal] compute what
    [round(x, n)], [repr(x)] and [float(s)] return on the numbers the
    monitor meets: confidences with a few decimals. They serve to run the
    model on concrete frames. *)

(** The float of an integer, exact below [2 ^ 53] in magnitude. *)
Definition float_of_Z (z : Z) : float :=
  if z <? 0 then (- of_uint63 (Uint63.of_Z (- z)))%float
  else of_uint63 (Uint63.of_Z z).

(** [n / d] rounded to the nearest integer, ties to even. *)
Definition div_half_even (n d : Z) : Z :=
  let q := n / d in
  let r := n mod d in
  if 2 * r <? d then q
  else if d <? 2 * r then q + 1
  else if Z.even q then q else q + 1.

(** The magnitude of [x] times [10 ^ ndigits], rounded to an integer. *)
Definition scaled (x : float) (ndigits : Z) : option Z :=
  match Prim2SF x with
  | S754_zero _ => Some 0
  | S754_finite _ m e =>
      let n := Zpos m * 10 ^ ndigits in
      Some (if 0 <=? e then n * 2 ^ e else div_half_even n (2 ^ (- e)))
  | _ => None
  end.

Definition round_decimal (x : float) (ndigits : Z) : float :=
  match scaled x ndigits with
  | Some k =>
      let r := (float_of_Z k / float_of_Z (10 ^ ndigits))%float in
      if get_sign x then (- r)%float else r
  | None => x
  end.

(** The text of a float that has at most two decimals; the empty text for
    any other float. *)
Definition repr_decimal (x : float) : string :=
  match scaled x 2 with
  | Some k =>
      if Leibniz.eqb (round_decimal x 2) x && (k <? 10 ^ 15) then
        let f := k mod 100 in
        (if get_sign x then "-" else "")
        ++ int_text (k / 100) ++ "."
        ++ (if f mod 10 =? 0 then int_text (f / 10)
            else int_text (f / 10) ++ int_text (f mod 10))
      else ""
  | None => ""
  end.

Fixpoint split_point (s : string) : string * option string :=
  match s with
  | EmptyString => (EmptyString, None)
  | String c r =>
      if (c =? ".")%char then (EmptyString, Some r)
      else let (a, b) := split_point r in (String c a, b)
  end.

(** The float written as digits, a point and digits: the quotient of two
    integers that binary64 holds exactly. *)
Definition float_of_decimal (s : string) : option float :=
  let (neg, body) :=
    match s with
    | String c r => if (c =? "-")%char then (true, r) else (false, s)
    | EmptyString => (false, s)
    end in
  match split_point body with
  | (whole, Some frac) =>
      if all_chars is_digit whole && all_chars is_digit frac
         && negb (whole =? "")%string && negb (frac =? "")%string
      then
        match int_of_text (whole ++ frac) with
        | Some n =>
            let p := Z.of_nat (length frac) in
            if (n <? 2 ^ 53) && (p <=? 22) then
              let r := (float_of_Z n / float_of_Z (10 ^ p))%float in
              Some (if neg then (- r)%float else r)
            else None
        | None => None
        end
      else None
  | (_, None) => None
  end.

(** The double nearest to [k / 100], with the sign [s]. *)
Definition hundredth (s : bool) (k : Z) : float :=
  let r := (float_of_Z k / float_of_Z 100)%float in
  if s then (- r)%float else r.

(** The range the data model gives a confidence. *)
Definition unit_interval (x : float) : Prop :=
  (0 <=? x)%float = true /\ (x <=? 1)%float = true.

(** The text of [x] is a JSON number with a fraction and reads back
    as [x]. *)
Definition text_ok_b (x : float) : bool :=
  all_chars is_number_char (repr_decimal x)
  && any_char is_float_mark (repr_decimal x)
  && match float_of_decimal (repr_decimal x) with
     | Some y => Leibniz.eqb y x
     | None => false
     end.

(** ** Sample frames *)

Definition noon : datetime := mkTime 2025 3 14 12 0 7.

(** A person well inside the red zone, center (325, 225), with the
    confidence 0.9. *)
Definition person : Box :=
  mkBox (300, 200, 350, 250) 0x1.ccccccccccccdp-1%float "person" noon.

(** A box whose confidence is the threshold itself and whose center is the
    corner (200, 150) of the red zone. *)
Definition corner_box : Box :=
  mkBox (100, 50, 300, 250) CONFIDENCE_THRESHOLD "cat" noon.

(** A box inside the red zone whose confidence, 0.4, is below the
    threshold. *)
Definition faint_box : Box :=
  mkBox (300, 200, 350, 250) 0x1.999999999999ap-2%float "person" noon.

(** A box inside the red zone whose confidence is NaN. *)
Definition nan_box : Box := mkBox (300, 200, 350, 250) nan "person" noon.

(** The same time of day, a day later. *)
Definition next_noon : datetime := mkTime 2025 3 15 12 0 7.

(** A frame with the person in it; every call of the pass succeeds. *)
Definition person_tick : Tick := mkTick true [[person]] noon true true 0.

(** A frame with nothing in it. *)
Definition empty_tick : Tick := mkTick true [] noon true true 0.


(** The camera returns no frame. *)
Definition failed_read : Tick := mkTick false [] noon true true 0.

(** The person arrives while the log cannot be written. *)
Definition unwritable_tick : Tick := mkTick true [[person]] noon false true 0.

(** The person arrives and the snapshot cannot be saved. *)
Definition unsaved_tick : Tick := mkTick true [[person]] noon true false 0.

(** ** The preview pasted on a black canvas

    Lines 147 to 181: the frame, resized, is pasted on a canvas of the size
    of the monitor, then of the size of the window. A paste is the numpy
    assignment [canvas[y0:y0+h, x0:x0+w] = image]. *)

Definition target_w : Z := 640.
Definition target_h : Z := 480.

(** The number of indices the slice [start:stop] selects on an axis of
    length [n]: a negative bound counts from the end, and both bounds are
    clipped to the axis. *)
Definition slice_bound (n i : Z) : Z :=
  if i <? 0 then Z.max (i + n) 0 else Z.min i n.

Definition slice_length (n start stop : Z) : Z :=
  Z.max 0 (slice_bound n stop - slice_bound n start).

(** An axis of the image can be assigned to an axis of the slice when the
    lengths agree or the image has length one there (broadcasting). *)
Definition assignable (image slice : Z) : bool :=
  (image =? slice) || (image =? 1).

(** The paste of an image of [h] rows and [w] columns at [(y0, x0)] on a
    canvas of [rows] rows and [cols] columns goes through; otherwise numpy
    raises [ValueError], which the script does not catch. *)
Definition paste_ok (rows cols y0 x0 h w : Z) : bool :=
  assignable h (slice_length rows y0 (y0 + h))
  && assignable w (slice_length cols x0 (x0 + w)).

(** [x_offset] and [y_offset], lines 149 and 150. *)
Definition screen_offsets (screen_w screen_h : Z) : Z * Z :=
  ((screen_w - target_w) / 2, (screen_h - target_h) / 2).

(** The paste of line 151, of the frame resized to 640 by 480. *)
Definition screen_paste_ok (screen_w screen_h : Z) : bool :=
  let (x_offset, y_offset) := screen_offsets screen_w screen_h in
  paste_ok screen_h screen_w y_offset x_offset target_h target_w.

(** [a / b] on two [int]s, the nearest float to the quotient; computed as
    the quotient of the two floats, which is the same below [2 ^ 53]. *)
Definition true_div (a b : Z) : float := (float_of_Z a / float_of_Z b)%float.

(** [min(a, b)]: the first argument unless the second is smaller. *)
Definition py_min (a b : float) : float := if (b <? a)%float then b else a.

(** [int(x)]: the float cut toward zero; nothing for an infinity or NaN,
    where Python raises. *)
Definition int_of_float (x : float) : option Z :=
  match Prim2SF x with
  | S754_zero _ => Some 0
  | S754_finite s m e =>
      let v := if 0 <=? e then Zpos m * 2 ^ e else Zpos m / 2 ^ (- e) in
      Some (if s then - v else v)
  | _ => None
  end.

(** [disp_w, disp_h], lines 169 to 174, for a window already made at
    least one pixel wide and high. *)
Definition preview_size (win_w win_h : Z) : option (Z * Z) :=
  if (win_w <? target_w) || (win_h <? target_h) then
    let scale := py_min (true_div win_w target_w) (true_div win_h target_h) in
    match int_of_float (float_of_Z target_w * scale),
          int_of_float (float_of_Z target_h * scale) with
    | Some w, Some h => Some (Z.max 1 w, Z.max 1 h)
    | _, _ => None
    end
  else Some (target_w, target_h).

(** Lines 158 to 181: the size of the canvas, the size of the preview and
    the corner [(x0, y0)] where it is pasted, from the size the window
    reports. *)
Record Letterbox : Set :=
  mkLetterbox { canvas_w : Z; canvas_h : Z; disp_w : Z; disp_h : Z; x0 : Z; y0 : Z }.

Definition letterbox (win_w win_h : Z) : option Letterbox :=
  let win_w := Z.max win_w 1 in
  let win_h := Z.max win_h 1 in
  match preview_size win_w win_h with
  | Some (disp_w, disp_h) =>
      Some (mkLetterbox win_w win_h disp_w disp_h
                        ((win_w - disp_w) / 2) ((win_h - disp_h) / 2))
  | None => None
  end.

(** The paste of line 181. *)
Definition letterbox_paste_ok (b : Letterbox) : bool :=
  paste_ok (canvas_h b) (canvas_w b) (y0 b) (x0 b) (disp_h b) (disp_w b).

(** The preview lies within the canvas. *)
Definition inside_canvas (b : Letterbox) : bool :=
  (1 <=? disp_w b) && (1 <=? disp_h b)
  && (0 <=? x0 b) && (x0 b + disp_w b <=? canvas_w b)
  && (0 <=? y0 b) && (y0 b + disp_h b <=? canvas_h b).

(** ** Vocabulary of the further properties *)

(** The preview size a scale gives, lines 171 and 172. *)
Definition size_of_scale (scale : float) : option (Z * Z) :=
  match int_of_float (float_of_Z target_w * scale),
        int_of_float (float_of_Z target_h * scale) with
  | Some w, Some h => Some (Z.max 1 w, Z.max 1 h)
  | _, _ => None
  end.

(** A window length [n] along an axis of target length [d], with its
    ratio and the preview size that ratio gives. *)
Definition axis_row (d n : Z) : Z * float * option (Z * Z) :=
  (n, true_div n d, size_of_scale (true_div n d)).

(** The letterbox of a window [w] by [h], from the rows of its two axes,
    lies within the canvas. *)
Definition rows_fit (cw ch : Z * float * option (Z * Z)) : bool :=
  let '(w, a, sa) := cw in
  let '(h, b, sb) := ch in
  match (if (b <? a)%float then sb else sa) with
  | Some (dw, dh) =>
      inside_canvas (mkLetterbox w h dw dh ((w - dw) / 2) ((h - dh) / 2))
  | None => false
  end.

(** The lengths [1] to [n]. *)
Definition lengths (n : nat) : list Z := map (fun k => Z.of_nat (S k)) (seq 0 n).

(** [f a b] holds for every [a] of the first list and [b] of the second. *)
Definition forallb2 {A B : Type} (f : A -> B -> bool) (la : list A) (lb : list B) : bool :=
  forallb (fun a => forallb (f a) lb) la.


(** A clock reading [datetime.now()] can return, from the year 1000 on,
    where the year is written with four digits. *)
Definition well_formed (t : datetime) : Prop :=
  (1000 <= year t <= 9999 /\ 1 <= month t <= 12 /\ 1 <= day t <= 31
   /\ hour t < 24 /\ minute t < 60 /\ second t < 60)%N.

(** The characters from the space to the tilde. *)
Definition printable (c : ascii) : bool :=
  let n := N_of_ascii c in ((32 <=? n) && (n <=? 126))%N.

Definition is_exited (s : status) : bool :=
  match s with Exited => true | _ => false end.

(** ** Python built-ins the script calls on floats

    [round], and the text of a float as [json.dumps] writes it
    ([float.__repr__]) and as [json.loads] reads it ([float]), are taken
    as given: the development holds for every choice of them. *)

Section Monitor.

Variable round : float -> Z -> float.
Variable float_repr : float -> string.
Variable float_of_string : string -> option float.

(** *** [json.dumps], with its default separators *)

Fixpoint dumps (v : json) : string :=
  match v with
  | JInt z => int_text z
  | JFloat x => float_repr x
  | JString s => quote s
  | JArray items => "[" ++ concat ", " (map dumps items) ++ "]"
  | JObject members =>
      "{" ++ concat ", " (map (fun kv => quote (fst kv) ++ ": " ++ dumps (snd kv)) members)
      ++ "}"
  end.

(** *** [json.loads]

    A recursive-descent reader of objects, arrays, strings and numbers;
    [fuel] bounds the nesting and the number of items. The members of an
    object are returned in the order of the text. *)

Definition read_number (s : string) : option (json * string) :=
  let (tok, rest) := span_number s in
  if any_char is_float_mark tok
  then option_map (fun x => (JFloat x, rest)) (float_of_string tok)
  else option_map (fun z => (JInt z, rest)) (int_of_text tok).

Fixpoint parse_value (fuel : nat) (s : string) : option (json * string) :=
  match fuel with
  | O => None
  | S fuel' =>
      match skip_ws s with
      | EmptyString => None
      | String c r =>
          if (c =? "{")%char then
            match skip_ws r with
            | String c' r' =>
                if (c' =? "}")%char then Some (JObject [], r')
                else option_map (fun p => (JObject (fst p), snd p)) (parse_members fuel' r)
            | EmptyString => None
            end
          else if (c =? "[")%char then
            match skip_ws r with
            | String c' r' =>
                if (c' =? "]")%char then Some (JArray [], r')
                else option_map (fun p => (JArray (fst p), snd p)) (parse_items fuel' r)
            | EmptyString => None
            end
          else if (c =? dquote)%char then
            option_map (fun p => (JString (fst p), snd p)) (scan_string r)
          else if is_number_char c then read_number (String c r)
          else None
      end
  end
with parse_items (fuel : nat) (s : string) : option (list json * string) :=
  match fuel with
  | O => None
  | S fuel' =>
      match parse_value fuel' s with
      | None => None
      | Some (v, r) =>
          match skip_ws r with
          | String c r' =>
              if (c =? ",")%char then
                option_map (fun p => (v :: fst p, snd p)) (parse_items fuel' r')
              else if (c =? "]")%char then Some ([v], r')
              else None
          | EmptyString => None
          end
      end
  end
with parse_members (fuel : nat) (s : string) : option (list (string * json) * string) :=
  match fuel with
  | O => None
  | S fuel' =>
      match skip_ws s with
      | String c r =>
          if (c =? dquote)%char then
            match scan_string r with
            | None => None
            | Some (k, r1) =>
                match skip_ws r1 with
                | String c1 r2 =>
                    if (c1 =? ":")%char then
                      match parse_value fuel' r2 with
                      | None => None
                      | Some (v, r3) =>
                          match skip_ws r3 with
                          | String c2 r4 =>
                              if (c2 =? ",")%char then
                                option_map (fun p => ((k, v) :: fst p, snd p))
                                           (parse_members fuel' r4)
                              else if (c2 =? "}")%char then Some ([(k, v)], r4)
                              else None
                          | EmptyString => None
                          end
                      end
                    else None
                | EmptyString => None
                end
            end
          else None
      | EmptyString => None
      end
  end.

(** One JSON document, with nothing but white space after it. *)
Definition loads (s : string) : option json :=
  match parse_value (S (length s)) s with
  | Some (v, rest) =>
      match skip_ws rest with
      | EmptyString => Some v
      | String _ _ => None
      end
  | None => None
  end.

(** ** Zone filter *)

(** [cx, cy = (x1 + x2) // 2, (y1 + y2) // 2] *)
Definition center (b : Z * Z * Z * Z) : Z * Z :=
  let '(x1, y1, x2, y2) := b in ((x1 + x2) / 2, (y1 + y2) / 2).

(** [RED_ZONE["x1"] <= cx <= RED_ZONE["x2"] and RED_ZONE["y1"] <= cy <= RED_ZONE["y2"]] *)
Definition inside_zone (z : Zone) (c : Z * Z) : bool :=
  let (cx, cy) := c in
  ((zx1 z <=? cx) && (cx <=? zx2 z)) && ((zy1 z <=? cy) && (cy <=? zy2 z)).

(** The dictionary appended for a box that is inside the zone. *)
Definition hit_of (box : Box) : ZoneHit :=
  mkHit (label box) (round (conf box) 2) (strftime_date_time (seen box)) (xyxy box).

(** The body of [for box in r.boxes], as a step on the list
    [detections_in_zone] built so far. *)
Definition visit_box (cfg : Config) (acc : list ZoneHit) (box : Box) : list ZoneHit :=
  if (conf box <? threshold cfg)%float then acc
  else
    if inside_zone (zone cfg) (center (xyxy box))
    then (acc ++ [hit_of box])%list
    else acc.

(** The two nested [for] loops over [results] and [r.boxes], from the
    empty list. *)
Definition detections_in_zone (cfg : Config) (results : list (list Box)) : list ZoneHit :=
  fold_left (fun acc boxes => fold_left (visit_box cfg) boxes acc) results [].

(** A box that passes both tests of [visit_box]. *)
Definition qualifies (cfg : Config) (box : Box) : bool :=
  negb (conf box <? threshold cfg)%float
  && inside_zone (zone cfg) (center (xyxy box)).

(** ** Log records *)

(** The tuple [coords] is written by [json.dumps] as an array. *)
Definition coords_json (b : Z * Z * Z * Z) : json :=
  let '(x1, y1, x2, y2) := b in JArray [JInt x1; JInt y1; JInt x2; JInt y2].

Definition object_json (d : ZoneHit) : json :=
  JObject [("name", JString (name d));
           ("confidence", JFloat (confidence d));
           ("coords", coords_json (coords d))].

(** The dictionary [alert]. *)
Definition enter_alert (t : datetime) (hits : list ZoneHit) : json :=
  JObject [("event", JString "Object ENTERED red zone");
           ("timestamp", JString (strftime_date_time t));
           ("objects", JArray (map object_json hits))].

(** The dictionary [exit_event]. *)
Definition exit_event (t : datetime) : json :=
  JObject [("event", JString "Object LEFT red zone");
           ("timestamp", JString (strftime_date_time t))].

(** The text [f.write] receives: [json.dumps(record) + "\n"]. *)
Definition log_line (record : json) : string :=
  dumps record ++ String newline "".

(** ** The frame loop *)

(** [f"redzone_capture_{t.strftime('%H%M%S')}.jpg"] *)
Definition snapshot_name (t : datetime) : string :=
  "redzone_capture_" ++ strftime_HMS t ++ ".jpg".

(** Lines 101 to 139: the entry/exit logic, given [detections_in_zone] and
    the value just assigned to [object_in_zone]. The last component is
    [false] when the log could not be written. *)
Definition entry_exit (st : State) (hits : list ZoneHit) (tk : Tick)
  : State * list effect * bool :=
  if object_in_zone st then
    if negb (alert_active st) then
      let st' := mkState (object_in_zone st) true false in
      let alert := enter_alert (now tk) hits in
      if log_ok tk then
        let snap := snapshot_name (now tk) in
        (st',
         [LogAppend alert; ImWrite snap;
          Print ("[ALERT] Object entered red zone! Snapshot saved: " ++ snap)],
         true)
      else (st', [], false)
    else (st, [], true)
  else
    if alert_active st then
      if log_ok tk then
        (mkState (object_in_zone st) false (cleared_printed st),
         [LogAppend (exit_event (now tk)); Print "[CLEARED] Object left red zone."],
         true)
      else (st, [], false)
    else (st, [], true).

(** [cv2.waitKey(1) & 0xFF == ord('q')] *)
Definition quit_pressed (k : Z) : bool := Z.land k 255 =? 113.

(** A pass that ran to its end leaves the loop when q was pressed. *)
Definition leave (k : Z) : control := if quit_pressed k then Break else Next.

(** One pass of the body of [while True]. *)
Definition loop_body (st : State) (tk : Tick) : State * list effect * control :=
  if negb (ret tk) then (st, [Print "Failed to capture frame."], Break)
  else
    let hits := detections_in_zone settings (results tk) in
    let st1 := mkState (0 <? Z.of_nat (List.length hits)) (alert_active st)
                       (cleared_printed st) in
    let '(st2, out, written) := entry_exit st1 hits tk in
    if negb written then (st2, out, Raise) else (st2, out, leave (key tk)).

Fixpoint run (st : State) (ticks : list Tick) : State * list effect * status :=
  match ticks with
  | [] => (st, [], Running)
  | tk :: rest =>
      let '(st', out, c) := loop_body st tk in
      match c with
      | Next => let '(st'', out', s) := run st' rest in (st'', (out ++ out')%list, s)
      | Break => (st', out, Exited)
      | Raise => (st', out, Crashed)
      end
  end.

(** The script from its first pass on: the loop, then [cap.release()] and
    [cv2.destroyAllWindows()] when the loop was left by [break]. *)
Definition main (ticks : list Tick) : State * list effect * status :=
  let '(st, out, s) := run initial ticks in
  match s with
  | Exited => (st, (out ++ [Release; DestroyAllWindows])%list, Exited)
  | _ => (st, out, s)
  end.

(** *** Events written to the log *)

Definition lookup (k : string) (r : json) : option json :=
  match r with
  | JObject members => option_map snd (find (fun kv => String.eqb (fst kv) k) members)
  | _ => None
  end.

(** The kind of a log record, read off its event tag. *)
Definition kind_of (r : json) : option event_kind :=
  match lookup "event" r with
  | Some (JString tag) =>
      if String.eqb tag "Object ENTERED red zone" then Some ENTER
      else if String.eqb tag "Object LEFT red zone" then Some LEAVE
      else None
  | _ => None
  end.

Fixpoint records (out : list effect) : list json :=
  match out with
  | LogAppend r :: out' => r :: records out'
  | _ :: out' => records out'
  | [] => []
  end.

Fixpoint events (out : list effect) : list event_kind :=
  match out with
  | LogAppend r :: out' =>
      match kind_of r with
      | Some k => k :: events out'
      | None => events out'
      end
  | _ :: out' => events out'
  | [] => []
  end.


(** *** Vocabulary of the properties *)

(** What follows a number in a JSON text is no number character. *)
Definition delimited (rest : string) : bool :=
  match rest with
  | EmptyString => true
  | String c _ => negb (is_number_char c)
  end.

(** The float text of [x] is a JSON number with a fraction or an exponent,
    and [float] reads it back as [x]. *)
Definition float_text_ok (x : float) : Prop :=
  all_chars is_number_char (float_repr x) = true
  /\ any_char is_float_mark (float_repr x) = true
  /\ float_of_string (float_repr x) = Some x.

Fixpoint floats_of (v : json) : list float :=
  match v with
  | JFloat x => [x]
  | JArray items => flat_map floats_of items
  | JObject members => flat_map (fun kv => floats_of (snd kv)) members
  | _ => []
  end.

Definition member_text (kv : string * json) : string :=
  quote (fst kv) ++ ": " ++ dumps (snd kv).

(** The statement proved by induction on the fuel. *)
Definition reads_back (fuel : nat) : Prop :=
  forall v rest,
    (length (dumps v) < fuel)%nat ->
    Forall float_text_ok (floats_of v) ->
    delimited rest = true ->
    parse_value fuel (dumps v ++ rest) = Some (v, rest).

(** The object an entry record holds for a box: label, confidence rounded
    to two places, and the four coordinates. *)
Definition logged_object (box : Box) : json :=
  let '(x1, y1, x2, y2) := xyxy box in
  JObject [("name", JString (label box));
           ("confidence", JFloat (round (conf box) 2));
           ("coords", JArray [JInt x1; JInt y1; JInt x2; JInt y2])].

(** The center with division truncated toward zero, as the specification
    words it. *)
Definition truncated_center (b : Z * Z * Z * Z) : Z * Z :=
  let '(x1, y1, x2, y2) := b in (Z.quot (x1 + x2) 2, Z.quot (y1 + y2) 2).

(** [l1] is [l2] with some elements left out. *)
Inductive subseq {A : Type} : list A -> list A -> Prop :=
| subseq_nil : subseq [] []
| subseq_take x l1 l2 : subseq l1 l2 -> subseq (x :: l1) (x :: l2)
| subseq_drop x l1 l2 : subseq l1 l2 -> subseq l1 (x :: l2).

Definition other (k : event_kind) : event_kind :=
  match k with ENTER => LEAVE | LEAVE => ENTER end.

Definition same_kind (a b : event_kind) : bool :=
  match a, b with
  | ENTER, ENTER | LEAVE, LEAVE => true
  | _, _ => false
  end.

(** [alternates k l]: [l] is [k], then the other kind, then [k], and so on. *)
Fixpoint alternates (k : event_kind) (l : list event_kind) : bool :=
  match l with
  | [] => true
  | e :: l' => same_kind e k && alternates (other k) l'
  end.

Definition count (k : event_kind) (l : list event_kind) : nat :=
  List.length (filter (same_kind k) l).

(** The frame of a tick holds a box that passes the filter. *)
Definition occupied (tk : Tick) : Prop :=
  exists box, In box (List.concat (results tk)) /\ qualifies settings box = true.

(** A pass that read a frame and ran to its end. *)
Inductive evaluated : State -> Tick -> State -> Prop :=
| evaluated_pass st tk st' out c :
    ret tk = true -> loop_body st tk = (st', out, c) -> c <> Raise ->
    evaluated st tk st'.

(** The states the loop can be in, with the last tick evaluated, if any. *)
Inductive reachable : option Tick -> State -> Prop :=
| reachable_initial : reachable None initial
| reachable_pass last st tk st' :
    reachable last st -> evaluated st tk st' -> reachable (Some tk) st'.

Definition is_release (e : effect) : bool :=
  match e with Release => true | _ => false end.

Definition with_snap (b : bool) (tk : Tick) : Tick :=
  mkTick (ret tk) (results tk) (now tk) (log_ok tk) b (key tk).

(** A pass in which the snapshot fails can be told from one in which it
    is saved. *)
Definition snapshot_failure_reported (st : State) (tk : Tick) : Prop :=
  loop_body st (with_snap false tk) <> loop_body st (with_snap true tk).

(** An entry record has at least one object. *)
Definition enter_has_objects (r : json) : bool :=
  match kind_of r with
  | Some ENTER =>
      match lookup "objects" r with
      | Some (JArray (_ :: _)) => true
      | _ => false
      end
  | _ => true
  end.

(** * Properties *)

(** ** Text of strings and numbers *)

Lemma append_assoc (a b c : string) : (a ++ b) ++ c = a ++ (b ++ c).
Proof. induction a as [|x a IH]; simpl; [reflexivity | now rewrite IH]. Qed.

Lemma length_append (a b : string) : length (a ++ b) = (length a + length b)%nat.
Proof. induction a as [|x a IH]; simpl; [reflexivity | now rewrite IH]. Qed.

(** Reading the escape of one character gives the character back. *)
Lemma scan_escape_char (c : ascii) (t : string) :
  scan_string (escape_char c ++ t) = push c (scan_string t).
Proof.
  destruct c as [[|] [|] [|] [|] [|] [|] [|] [|]]; reflexivity.
Qed.

Lemma scan_string_escape (s rest : string) :
  scan_string (escape s ++ String dquote rest) = Some (s, rest).
Proof.
  induction s as [|c s IH]; simpl.
  - reflexivity.
  - rewrite append_assoc, scan_escape_char, IH. reflexivity.
Qed.

Lemma span_number_token (tok rest : string) :
  all_chars is_number_char tok = true -> delimited rest = true ->
  span_number (tok ++ rest) = (tok, rest).
Proof.
  intros Htok Hrest. induction tok as [|c tok IH]; simpl in *.
  - destruct rest as [|c r]; simpl in *; [reflexivity|].
    now destruct (is_number_char c).
  - apply andb_true_iff in Htok as [Hc Htok].
    rewrite Hc, (IH Htok). reflexivity.
Qed.

Lemma digits_of_uint (d : Decimal.uint) :
  all_chars is_digit (NilEmpty.string_of_uint d) = true.
Proof. induction d; simpl; auto. Qed.

Lemma all_chars_weaken (p q : ascii -> bool) (s : string) :
  (forall c, p c = true -> q c = true) ->
  all_chars p s = true -> all_chars q s = true.
Proof.
  intros Hpq. induction s as [|c s IH]; simpl; [easy|].
  rewrite !andb_true_iff. intros [Hc Hs]. auto.
Qed.

Lemma any_char_none (p q : ascii -> bool) (s : string) :
  (forall c, p c = true -> q c = false) ->
  all_chars p s = true -> any_char q s = false.
Proof.
  intros Hpq. induction s as [|c s IH]; simpl; [easy|].
  rewrite andb_true_iff. intros [Hc Hs].
  now rewrite (Hpq _ Hc), (IH Hs).
Qed.

Lemma digit_is_number_char (c : ascii) : is_digit c = true -> is_number_char c = true.
Proof. unfold is_number_char. now intros ->. Qed.

Lemma digit_no_float_mark (c : ascii) : is_digit c = true -> is_float_mark c = false.
Proof. destruct c as [[|] [|] [|] [|] [|] [|] [|] [|]]; easy. Qed.

Lemma uint_text_nonnil (p : positive) :
  NilZero.string_of_uint (Pos.to_uint p) = NilEmpty.string_of_uint (Pos.to_uint p).
Proof.
  pose proof (DecimalPos.Unsigned.to_uint_nonnil p) as H.
  now destruct (Pos.to_uint p).
Qed.

(** The text of an [int]: an optional minus sign, then digits. *)
Lemma int_text_shape (z : Z) :
  exists c r, int_text z = String c r
              /\ is_number_char c = true
              /\ all_chars is_number_char (int_text z) = true
              /\ any_char is_float_mark (int_text z) = false.
Proof.
  unfold int_text. destruct z as [|p|p]; simpl.
  - exists "0"%char, EmptyString. repeat split.
  - rewrite uint_text_nonnil.
    pose proof (digits_of_uint (Pos.to_uint p)) as Hd.
    pose proof (DecimalPos.Unsigned.to_uint_nonnil p) as Hn.
    destruct (NilEmpty.string_of_uint (Pos.to_uint p)) as [|c r] eqn:E.
    + destruct (Pos.to_uint p); simpl in E; congruence.
    + exists c, r. repeat split.
      * simpl in Hd. apply andb_true_iff in Hd as [Hc _].
        now apply digit_is_number_char.
      * eapply all_chars_weaken; [apply digit_is_number_char | exact Hd].
      * eapply any_char_none; [apply digit_no_float_mark | exact Hd].
  - rewrite uint_text_nonnil.
    pose proof (digits_of_uint (Pos.to_uint p)) as Hd.
    exists "-"%char, (NilEmpty.string_of_uint (Pos.to_uint p)). repeat split.
    + simpl. eapply all_chars_weaken; [apply digit_is_number_char | exact Hd].
    + simpl. eapply any_char_none; [apply digit_no_float_mark | exact Hd].
Qed.

Lemma int_of_text_int_text (z : Z) : int_of_text (int_text z) = Some z.
Proof.
  unfold int_of_text, int_text.
  rewrite NilZero.isi.
  - simpl. now rewrite DecimalZ.of_to.
  - destruct z; simpl; try discriminate.
    intros [= H]. now apply (DecimalPos.Unsigned.to_uint_nonnil p).
  - destruct z; simpl; try discriminate.
    intros [= H]. now apply (DecimalPos.Unsigned.to_uint_nonnil p).
Qed.


(** ** Reading back what [dumps] wrote *)

Lemma number_char_dispatch (c : ascii) :
  is_number_char c = true ->
  is_space c = false /\ (c =? "{")%char = false /\ (c =? "[")%char = false
  /\ (c =? dquote)%char = false /\ (c =? "]")%char = false /\ (c =? "}")%char = false.
Proof. destruct c as [[|] [|] [|] [|] [|] [|] [|] [|]]; intros H; try discriminate H; repeat split. Qed.

Lemma parse_value_number (f : nat) (c : ascii) (r : string) :
  is_number_char c = true ->
  parse_value (S f) (String c r) = read_number (String c r).
Proof.
  intros H. destruct (number_char_dispatch c H) as (Hs & H1 & H2 & H3 & _).
  simpl. now rewrite Hs, H1, H2, H3, H.
Qed.

Lemma parse_value_space (f : nat) (s : string) :
  parse_value f (String " " s) = parse_value f s.
Proof. destruct f; reflexivity. Qed.

Lemma parse_items_space (f : nat) (s : string) :
  parse_items f (String " " s) = parse_items f s.
Proof. destruct f; [reflexivity|]. simpl. now rewrite parse_value_space. Qed.

Lemma parse_members_space (f : nat) (s : string) :
  parse_members f (String " " s) = parse_members f s.
Proof. destruct f; reflexivity. Qed.

Lemma float_text_head (x : float) :
  float_text_ok x ->
  exists c r, float_repr x = String c r /\ is_number_char c = true.
Proof.
  intros (Hall & Hany & _). destruct (float_repr x) as [|c r]; [discriminate Hany|].
  exists c, r. split; [reflexivity|]. simpl in Hall. now apply andb_true_iff in Hall.
Qed.

(** No value starts with white space or with a closing bracket. *)
Lemma dumps_head (v : json) :
  Forall float_text_ok (floats_of v) ->
  exists c r, dumps v = String c r
              /\ is_space c = false /\ (c =? "]")%char = false /\ (c =? "}")%char = false.
Proof.
  intros Hok. destruct v as [z|x|s|items|members]; simpl.
  - destruct (int_text_shape z) as (c & r & E & Hc & _).
    destruct (number_char_dispatch c Hc) as (? & _ & _ & _ & ? & ?).
    exists c, r. now rewrite E.
  - simpl in Hok. apply Forall_inv in Hok.
    destruct (float_text_head x Hok) as (c & r & E & Hc).
    destruct (number_char_dispatch c Hc) as (? & _ & _ & _ & ? & ?).
    exists c, r. now rewrite E.
  - eexists _, _. repeat split.
  - eexists _, _. repeat split.
  - eexists _, _. repeat split.
Qed.

Lemma parse_items_dumps (vs : list json) :
  forall (g : nat) (v : json) (rest : string),
    (forall g', (g' < g)%nat -> reads_back g') ->
    (S (length (concat ", " (map dumps (v :: vs)))) < g)%nat ->
    Forall float_text_ok (flat_map floats_of (v :: vs)) ->
    parse_items g (concat ", " (map dumps (v :: vs)) ++ String "]" rest)
    = Some (v :: vs, rest).
Proof.
  induction vs as [|v2 vs IH]; intros g v rest Hrec Hlen Hok;
    (destruct g as [|g]; [inversion Hlen|]).
  - simpl in *. rewrite app_nil_r in Hok.
    rewrite (Hrec g); [reflexivity | lia | lia | exact Hok | reflexivity].
  - change (concat ", " (map dumps (v :: v2 :: vs)))
      with (dumps v ++ ", " ++ concat ", " (map dumps (v2 :: vs))) in *.
    rewrite !length_append in Hlen.
    change (flat_map floats_of (v :: v2 :: vs))
      with (floats_of v ++ flat_map floats_of (v2 :: vs))%list in Hok.
    apply Forall_app in Hok as [Hv Hvs].
    remember (concat ", " (map dumps (v2 :: vs))) as tail eqn:Etail.
    rewrite !append_assoc.
    cbn [parse_items].
    rewrite (Hrec g); [| lia | lia | exact Hv | reflexivity].
    cbn. rewrite parse_items_space. subst tail.
    rewrite IH; [reflexivity | | | exact Hvs].
    + intros g' Hg'. apply Hrec. lia.
    + cbn [length] in Hlen. lia.
Qed.


Lemma member_text_app (k : string) (v : json) (t : string) :
  member_text (k, v) ++ t
  = String dquote (escape k ++ String dquote (String ":" (String " " (dumps v ++ t)))).
Proof.
  unfold member_text, quote. simpl. now rewrite !append_assoc.
Qed.

Lemma parse_members_step (g : nat) (k : string) (v : json) (t : string) :
  parse_members (S g) (member_text (k, v) ++ t)
  = match parse_value g (dumps v ++ t) with
    | None => None
    | Some (v', r3) =>
        match skip_ws r3 with
        | String c2 r4 =>
            if (c2 =? ",")%char then
              option_map (fun p => ((k, v') :: fst p, snd p)) (parse_members g r4)
            else if (c2 =? "}")%char then Some ([(k, v')], r4)
            else None
        | EmptyString => None
        end
    end.
Proof.
  rewrite member_text_app.
  remember (dumps v ++ t) as body.
  cbn [parse_members skip_ws].
  change (is_space dquote) with false. cbv iota.
  change (dquote =? dquote)%char with true. cbv iota.
  rewrite scan_string_escape.
  cbn [skip_ws]. change (is_space ":") with false. cbv iota.
  change (":" =? ":")%char with true. cbv iota.
  now rewrite parse_value_space.
Qed.

Lemma parse_members_dumps (ms : list (string * json)) :
  forall (g : nat) (kv : string * json) (rest : string),
    (forall g', (g' < g)%nat -> reads_back g') ->
    (S (length (concat ", " (map member_text (kv :: ms)))) < g)%nat ->
    Forall float_text_ok (flat_map (fun kv => floats_of (snd kv)) (kv :: ms)) ->
    parse_members g (concat ", " (map member_text (kv :: ms)) ++ String "}" rest)
    = Some (kv :: ms, rest).
Proof.
  induction ms as [|kv2 ms IH]; intros g [k v] rest Hrec Hlen Hok;
    (destruct g as [|g]; [inversion Hlen|]).
  - cbn [map concat] in *. cbn [flat_map snd] in Hok. rewrite app_nil_r in Hok.
    rewrite parse_members_step.
    unfold member_text in Hlen. rewrite !length_append in Hlen. cbn [fst snd] in Hlen.
    rewrite (Hrec g); [reflexivity | lia | lia | exact Hok | reflexivity].
  - change (concat ", " (map member_text ((k, v) :: kv2 :: ms)))
      with (member_text (k, v) ++ ", " ++ concat ", " (map member_text (kv2 :: ms))) in *.
    rewrite !length_append in Hlen.
    change (flat_map (fun kv => floats_of (snd kv)) ((k, v) :: kv2 :: ms))
      with (floats_of v ++ flat_map (fun kv => floats_of (snd kv)) (kv2 :: ms))%list in Hok.
    apply Forall_app in Hok as [Hv Hms].
    remember (concat ", " (map member_text (kv2 :: ms))) as tail eqn:Etail.
    rewrite !append_assoc, parse_members_step.
    unfold member_text in Hlen. rewrite !length_append in Hlen. cbn [fst snd] in Hlen.
    rewrite (Hrec g); [| lia | lia | exact Hv | reflexivity].
    cbn. rewrite parse_members_space. subst tail.
    rewrite IH; [reflexivity | | | exact Hms].
    + intros g' Hg'. apply Hrec. lia.
    + cbn [length] in Hlen. lia.
Qed.

(** Every value whose floats have a readable text is read back from its
    own text, whatever delimited text follows. *)
Lemma parse_value_dumps (fuel : nat) : reads_back fuel.
Proof.
  induction fuel as [fuel Hrec] using lt_wf_ind.
  intros v rest Hlen Hok Hrest.
  destruct fuel as [|f]; [inversion Hlen|].
  destruct v as [z|x|s|items|members].
  - destruct (int_text_shape z) as (c & r & E & Hc & Hall & Hany).
    cbn [dumps]. rewrite E. cbn [append].
    rewrite parse_value_number by exact Hc.
    change (String c (r ++ rest)) with (String c r ++ rest). rewrite <- E.
    unfold read_number. rewrite span_number_token by assumption.
    now rewrite Hany, int_of_text_int_text.
  - cbn [floats_of] in Hok. apply Forall_inv in Hok.
    destruct (float_text_head x Hok) as (c & r & E & Hc).
    destruct Hok as (Hall & Hany & Hread).
    cbn [dumps]. rewrite E. cbn [append].
    rewrite parse_value_number by exact Hc.
    change (String c (r ++ rest)) with (String c r ++ rest). rewrite <- E.
    unfold read_number. rewrite span_number_token by assumption.
    now rewrite Hany, Hread.
  - cbn [dumps]. unfold quote. cbn [append]. rewrite append_assoc. cbn [append].
    cbn [parse_value skip_ws]. change (is_space dquote) with false. cbv iota.
    change (dquote =? "{")%char with false. change (dquote =? "[")%char with false.
    change (dquote =? dquote)%char with true. cbv iota.
    now rewrite scan_string_escape.
  - cbn [dumps] in *. cbn [append length] in Hlen. rewrite length_append in Hlen.
    cbn [floats_of] in Hok.
    cbn [append]. rewrite append_assoc. cbn [append].
    destruct items as [|v vs].
    + reflexivity.
    + assert (Hv : Forall float_text_ok (floats_of v)).
      { cbn [flat_map] in Hok. now apply Forall_app in Hok. }
      destruct (dumps_head v Hv) as (c & r & E & Hs & Hb & _).
      remember (concat ", " (map dumps (v :: vs)) ++ String "]" rest) as body eqn:Ebody.
      assert (Hbody : exists r', body = String c r').
      { subst body. destruct vs; cbn [map concat]; rewrite E; eexists; reflexivity. }
      destruct Hbody as (r' & Hb').
      cbn [parse_value skip_ws]. change (is_space "[") with false. cbv iota.
      change ("[" =? "{")%char with false. change ("[" =? "[")%char with true.
      cbv iota. rewrite Hb'. cbn [skip_ws]. rewrite Hs, Hb, <- Hb', Ebody.
      rewrite (parse_items_dumps vs f v rest);
        [reflexivity | intros g' Hg'; apply Hrec; lia | cbn [length] in Hlen; lia | exact Hok ].
  - change (dumps (JObject members))
      with ("{" ++ concat ", " (map member_text members) ++ "}") in *.
    cbn [append length] in Hlen. rewrite length_append in Hlen.
    cbn [floats_of] in Hok.
    cbn [append]. rewrite append_assoc. cbn [append].
    destruct members as [|[k v] ms].
    + reflexivity.
    + remember (concat ", " (map member_text ((k, v) :: ms)) ++ String "}" rest)
        as body eqn:Ebody.
      assert (Hbody : exists r', body = String dquote r').
      { subst body. destruct ms; cbn [map concat]; unfold member_text, quote;
          eexists; reflexivity. }
      destruct Hbody as (r' & Hb').
      cbn [parse_value skip_ws]. change (is_space "{") with false. cbv iota.
      change ("{" =? "{")%char with true. cbv iota.
      rewrite Hb'. cbn [skip_ws]. change (is_space dquote) with false. cbv iota.
      change (dquote =? "}")%char with false. cbv iota. rewrite <- Hb', Ebody.
      rewrite (parse_members_dumps ms f (k, v) rest);
        [reflexivity | intros g' Hg'; apply Hrec; lia | cbn [length] in Hlen; lia | exact Hok ].
Qed.


(** ** Comparison of floats *)

Lemma SFcompare_swap (a b : spec_float) :
  SFcompare b a = option_map CompOpp (SFcompare a b).
Proof.
  destruct a as [sa|sa| |sa ma ea], b as [sb|sb| |sb mb eb]; simpl;
    try reflexivity; try (destruct sa; reflexivity); try (destruct sb; reflexivity);
    try (destruct sa, sb; reflexivity).
  change (Pos.compare_cont Eq mb ma) with (Pos.compare mb ma).
  change (Pos.compare_cont Eq ma mb) with (Pos.compare ma mb).
  rewrite (Z.compare_antisym ea eb), (Pos.compare_antisym ma mb).
  destruct sa, sb; simpl; try reflexivity;
    destruct (ea ?= eb); simpl; try reflexivity;
    destruct (ma ?= mb)%positive; reflexivity.
Qed.

Lemma not_nan_spec (x : float) : is_nan x = false -> Prim2SF x <> S754_nan.
Proof.
  unfold is_nan. rewrite FloatAxioms.eqb_spec. intros H E. rewrite E in H. discriminate H.
Qed.

(** Away from NaN, [not (x < y)] is [y <= x]. *)
Lemma not_ltb_leb (x y : float) :
  is_nan x = false -> is_nan y = false ->
  negb (x <? y)%float = (y <=? x)%float.
Proof.
  intros Hx Hy. apply not_nan_spec in Hx, Hy.
  rewrite FloatAxioms.ltb_spec, FloatAxioms.leb_spec. unfold SFltb, SFleb.
  rewrite (SFcompare_swap (Prim2SF x) (Prim2SF y)).
  destruct (SFcompare (Prim2SF x) (Prim2SF y)) as [[| |]|] eqn:E; try reflexivity.
  destruct (Prim2SF x), (Prim2SF y); simpl in E; congruence.
Qed.

(** ** The zone filter *)

Lemma visit_box_qualifies (cfg : Config) (acc : list ZoneHit) (box : Box) :
  visit_box cfg acc box
  = (acc ++ (if qualifies cfg box then [hit_of box] else []))%list.
Proof.
  unfold visit_box, qualifies.
  destruct (conf box <? threshold cfg)%float; simpl; [now rewrite app_nil_r|].
  destruct (inside_zone _ _); [reflexivity | now rewrite app_nil_r].
Qed.

Lemma fold_visit_box (cfg : Config) (boxes : list Box) :
  forall acc,
    fold_left (visit_box cfg) boxes acc
    = (acc ++ map hit_of (filter (qualifies cfg) boxes))%list.
Proof.
  induction boxes as [|b boxes IH]; intros acc; simpl.
  - now rewrite app_nil_r.
  - rewrite IH, visit_box_qualifies.
    destruct (qualifies cfg b); simpl; now rewrite <- app_assoc.
Qed.

Lemma fold_results (cfg : Config) (results : list (list Box)) :
  forall acc,
    fold_left (fun acc boxes => fold_left (visit_box cfg) boxes acc) results acc
    = (acc ++ map hit_of (filter (qualifies cfg) (List.concat results)))%list.
Proof.
  induction results as [|r results IH]; intros acc; simpl.
  - now rewrite app_nil_r.
  - rewrite IH, fold_visit_box, filter_app, map_app. now rewrite app_assoc.
Qed.

Lemma detections_in_zone_filter (cfg : Config) (results : list (list Box)) :
  detections_in_zone cfg results
  = map hit_of (filter (qualifies cfg) (List.concat results)).
Proof. unfold detections_in_zone. now rewrite fold_results. Qed.

Lemma inside_zone_spec (z : Zone) (cx cy : Z) :
  inside_zone z (cx, cy) = true
  <-> (zx1 z <= cx <= zx2 z) /\ (zy1 z <= cy <= zy2 z).
Proof. unfold inside_zone. rewrite !andb_true_iff, !Z.leb_le. tauto. Qed.


Lemma subseq_filter {A : Type} (p : A -> bool) (l : list A) : subseq (filter p l) l.
Proof.
  induction l as [|x l IH]; simpl; [constructor|].
  destruct (p x); now constructor.
Qed.

Lemma object_json_hit_of (box : Box) : object_json (hit_of box) = logged_object box.
Proof.
  unfold object_json, logged_object, hit_of, coords_json. simpl.
  now destruct (xyxy box) as [[[x1 y1] x2] y2].
Qed.

(** C2. A box passes the zone filter exactly when its confidence is at
    least the threshold and its center lies in the zone, borders included;
    a box that passes is appended to [detections_in_zone], any other box
    leaves the list as it is. The confidence and the threshold are numbers
    (not NaN), as the data model has them. *)
Theorem C2_zone_filter_classifies (cfg : Config) (acc : list ZoneHit) (box : Box) :
  is_nan (conf box) = false ->
  is_nan (threshold cfg) = false ->
  let (cx, cy) := center (xyxy box) in
  (qualifies cfg box = true
   <-> (threshold cfg <=? conf box)%float = true
       /\ (zx1 (zone cfg) <= cx <= zx2 (zone cfg))
       /\ (zy1 (zone cfg) <= cy <= zy2 (zone cfg)))
  /\ visit_box cfg acc box
     = (if qualifies cfg box then (acc ++ [hit_of box])%list else acc).
Proof.
  intros Hconf Hthr.
  pose proof (inside_zone_spec (zone cfg)) as Hin.
  pose proof (visit_box_qualifies cfg acc box) as Hvisit.
  unfold qualifies in *.
  rewrite (not_ltb_leb _ _ Hconf Hthr) in *.
  destruct (center (xyxy box)) as [cx cy]. split.
  - rewrite andb_true_iff, Hin. tauto.
  - rewrite Hvisit.
    destruct ((threshold cfg <=? conf box)%float && inside_zone (zone cfg) (cx, cy));
      [reflexivity | apply app_nil_r].
Qed.

(** C8, amended. The center is computed with floor division: each
    coordinate is the largest integer not above half the sum. Whenever both
    sums are non-negative this is the division truncated toward zero. *)
Theorem C8_center_is_floor_division (x1 y1 x2 y2 : Z) :
  let (cx, cy) := center (x1, y1, x2, y2) in
  (2 * cx <= x1 + x2 < 2 * cx + 2)
  /\ (2 * cy <= y1 + y2 < 2 * cy + 2)
  /\ (0 <= x1 + x2 -> 0 <= y1 + y2 ->
      center (x1, y1, x2, y2) = truncated_center (x1, y1, x2, y2)).
Proof.
  unfold center, truncated_center.
  pose proof (Z.div_mod (x1 + x2) 2 ltac:(lia)) as Hx.
  pose proof (Z.mod_pos_bound (x1 + x2) 2 ltac:(lia)) as Hx'.
  pose proof (Z.div_mod (y1 + y2) 2 ltac:(lia)) as Hy.
  pose proof (Z.mod_pos_bound (y1 + y2) 2 ltac:(lia)) as Hy'.
  repeat split; try lia.
  intros H1 H2. now rewrite !Z.quot_div_nonneg by lia.
Qed.

(** C9. The zone filter keeps the boxes that qualify, in the order of the
    detector output: the kept boxes are a subsequence of that output,
    [detections_in_zone] holds one entry per kept box, and so does the
    objects array of the entry record. *)
Theorem C9_filter_preserves_order (cfg : Config) (results : list (list Box))
        (t : datetime) :
  let kept := filter (qualifies cfg) (List.concat results) in
  subseq kept (List.concat results)
  /\ detections_in_zone cfg results = map hit_of kept
  /\ lookup "objects" (enter_alert t (detections_in_zone cfg results))
     = Some (JArray (map logged_object kept)).
Proof.
  cbv zeta. rewrite detections_in_zone_filter. repeat split.
  - apply subseq_filter.
  - cbn. rewrite map_map. f_equal. f_equal.
    apply map_ext. intros b. apply object_json_hit_of.
Qed.


(** ** The frame loop *)

(** The pass over a frame that was read, as a table over the three tests
    it makes: is a box in the zone, is the alert active, can the log be
    written. *)
Lemma loop_body_read (st : State) (tk : Tick) :
  ret tk = true ->
  let hits := detections_in_zone settings (results tk) in
  loop_body st tk
  = match hits, alert_active st, log_ok tk with
    | _ :: _, false, true =>
        (mkState true true false,
         [LogAppend (enter_alert (now tk) hits);
          ImWrite (snapshot_name (now tk));
          Print ("[ALERT] Object entered red zone! Snapshot saved: "
                 ++ snapshot_name (now tk))],
         leave (key tk))
    | _ :: _, false, false => (mkState true true false, [], Raise)
    | _ :: _, true, _ => (mkState true true (cleared_printed st), [], leave (key tk))
    | [], true, true =>
        (mkState false false (cleared_printed st),
         [LogAppend (exit_event (now tk)); Print "[CLEARED] Object left red zone."],
         leave (key tk))
    | [], true, false => (mkState false true (cleared_printed st), [], Raise)
    | [], false, _ => (mkState false false (cleared_printed st), [], leave (key tk))
    end.
Proof.
  intros Hret. unfold loop_body, entry_exit, leave, snapshot_name. rewrite Hret.
  cbn [negb object_in_zone alert_active cleared_printed].
  destruct (detections_in_zone settings (results tk)) as [|h hs];
    destruct (alert_active st), (log_ok tk), (quit_pressed (key tk)); reflexivity.
Qed.

Lemma loop_body_failed_read (st : State) (tk : Tick) :
  ret tk = false ->
  loop_body st tk = (st, [Print "Failed to capture frame."], Break).
Proof. intros H. unfold loop_body. now rewrite H. Qed.

Lemma leave_not_raise (k : Z) : leave k <> Raise.
Proof. unfold leave. now destruct (quit_pressed k). Qed.

(** Splits a hypothesis [H : loop_body st tk = (st', out, c)] into the
    rows of the table and the failed read, replacing [st'], [out] and [c]
    by what the row gives. *)
Ltac pass_cases st tk H :=
  let Hret := fresh "Hret" in
  destruct (ret tk) eqn:Hret;
  [ rewrite (loop_body_read st tk Hret) in H; cbv zeta in H;
    destruct (detections_in_zone settings (results tk)) as [|? ?];
    destruct (alert_active st) eqn:?, (log_ok tk) eqn:?;
    injection H as <- <- <-
  | rewrite (loop_body_failed_read st tk Hret) in H;
    injection H as <- <- <- ].

Lemma events_app (a b : list effect) : events (a ++ b) = (events a ++ events b)%list.
Proof.
  induction a as [|e a IH]; [reflexivity|].
  destruct e; simpl; rewrite ?IH; try reflexivity.
  now destruct (kind_of record).
Qed.

Lemma records_app (a b : list effect) : records (a ++ b) = (records a ++ records b)%list.
Proof.
  induction a as [|e a IH]; [reflexivity|].
  destruct e; simpl; now rewrite ?IH.
Qed.

(** What one pass adds to the log when the log can be written: nothing,
    one entry record as the alert goes on, or one exit record as it goes
    off. *)
Lemma pass_events (st st' : State) (tk : Tick) (out : list effect) (c : control) :
  log_ok tk = true ->
  loop_body st tk = (st', out, c) ->
  c <> Raise
  /\ ((events out = [] /\ alert_active st' = alert_active st)
      \/ (events out = [ENTER] /\ alert_active st = false /\ alert_active st' = true)
      \/ (events out = [LEAVE] /\ alert_active st = true /\ alert_active st' = false)).
Proof.
  intros Hlog Hpass.
  pass_cases st tk Hpass; try discriminate Hlog;
    (split; [apply leave_not_raise || discriminate|]); cbn; auto.
Qed.

Lemma run_events (ticks : list Tick) :
  forall st,
    Forall (fun tk => log_ok tk = true) ticks ->
    let '(st', out, s) := run st ticks in
    alternates (if alert_active st then LEAVE else ENTER) (events out) = true
    /\ (count ENTER (events out) + (if alert_active st then 1 else 0)
        = count LEAVE (events out) + (if alert_active st' then 1 else 0))%nat.
Proof.
  induction ticks as [|tk ticks IH]; intros st Hok.
  - cbn. now destruct (alert_active st).
  - apply Forall_cons_iff in Hok as [Hlog Hok].
    cbn [run]. destruct (loop_body st tk) as [[st1 out1] c] eqn:Hpass.
    destruct (pass_events _ _ _ _ _ Hlog Hpass) as [Hc Hev].
    assert (Hone :
      alternates (if alert_active st then LEAVE else ENTER) (events out1) = true
      /\ (count ENTER (events out1) + (if alert_active st then 1 else 0)
          = count LEAVE (events out1) + (if alert_active st1 then 1 else 0))%nat).
    { destruct Hev as [[-> ->]|[(-> & -> & ->)|(-> & -> & ->)]]; cbn; auto. }
    destruct c; [| exact Hone | congruence].
    specialize (IH st1 Hok). destruct (run st1 ticks) as [[st2 out2] s].
    rewrite events_app. unfold count in *. rewrite !filter_app, !length_app.
    destruct IH as [IHalt IHcount].
    destruct Hev as [[-> E]|[(-> & Ha & Ha')|(-> & Ha & Ha')]];
      rewrite ?E, ?Ha, ?Ha' in *; cbn in *; split; (assumption || lia).
Qed.

Lemma hits_occupied (tk : Tick) :
  detections_in_zone settings (results tk) <> [] <-> occupied tk.
Proof.
  rewrite detections_in_zone_filter. unfold occupied. split.
  - intros H. destruct (filter (qualifies settings) (List.concat (results tk)))
      as [|b l] eqn:E; [now destruct H|].
    assert (Hb : In b (filter (qualifies settings) (List.concat (results tk))))
      by (rewrite E; now left).
    apply filter_In in Hb. now exists b.
  - intros (b & Hin & Hq) E.
    assert (Hb : In b (filter (qualifies settings) (List.concat (results tk))))
      by (apply filter_In; now split).
    destruct (filter (qualifies settings) (List.concat (results tk)));
      [exact Hb | discriminate E].
Qed.

Lemma evaluated_alert (st st' : State) (tk : Tick) :
  evaluated st tk st' ->
  (alert_active st' = true <-> detections_in_zone settings (results tk) <> [])
  /\ object_in_zone st' = alert_active st'.
Proof.
  intros [st0 tk0 st1 out c Hret Hpass Hc].
  pass_cases st0 tk0 Hpass; try discriminate Hret;
    cbn; try (now destruct Hc); (split; [split; congruence | reflexivity]).
Qed.


Lemma run_app (pre : list Tick) :
  forall st st1 out1 more,
    run st pre = (st1, out1, Running) ->
    run st (pre ++ more)
    = (let '(st2, out2, s) := run st1 more in (st2, (out1 ++ out2)%list, s)).
Proof.
  induction pre as [|tk pre IH]; intros st st1 out1 more Hpre.
  - cbn in Hpre. injection Hpre as <- <-. cbn. now destruct (run st more) as [[? ?] ?].
  - cbn [run app] in *. destruct (loop_body st tk) as [[st' out] c].
    destruct c; try discriminate Hpre.
    destruct (run st' pre) as [[st'' out'] s] eqn:E.
    injection Hpre as <- <- ->.
    rewrite (IH st' st'' out' more E).
    destruct (run st'' more) as [[? ?] ?]. now rewrite app_assoc.
Qed.

Lemma pass_no_release (st st' : State) (tk : Tick) (out : list effect) (c : control) :
  loop_body st tk = (st', out, c) -> existsb is_release out = false.
Proof.
  intros Hpass. pass_cases st tk Hpass; reflexivity.
Qed.

Lemma run_no_release (ticks : list Tick) :
  forall st st' out s, run st ticks = (st', out, s) -> existsb is_release out = false.
Proof.
  induction ticks as [|tk ticks IH]; intros st st' out s Hrun; cbn [run] in Hrun.
  - now injection Hrun as <- <- <-.
  - destruct (loop_body st tk) as [[st1 out1] c] eqn:Hpass.
    pose proof (pass_no_release _ _ _ _ _ Hpass) as H1.
    destruct c; try (now injection Hrun as <- <- <-).
    destruct (run st1 ticks) as [[st2 out2] s2] eqn:E.
    injection Hrun as <- <- <-. rewrite existsb_app, H1. exact (IH _ _ _ _ E).
Qed.

Lemma pass_enter_has_objects (st st' : State) (tk : Tick) (out : list effect) (c : control) :
  loop_body st tk = (st', out, c) -> forallb enter_has_objects (records out) = true.
Proof.
  intros Hpass. pass_cases st tk Hpass; reflexivity.
Qed.

Lemma run_enter_has_objects (ticks : list Tick) :
  forall st st' out s,
    run st ticks = (st', out, s) -> forallb enter_has_objects (records out) = true.
Proof.
  induction ticks as [|tk ticks IH]; intros st st' out s Hrun; cbn [run] in Hrun.
  - now injection Hrun as <- <- <-.
  - destruct (loop_body st tk) as [[st1 out1] c] eqn:Hpass.
    pose proof (pass_enter_has_objects _ _ _ _ _ Hpass) as H1.
    destruct c; try (now injection Hrun as <- <- <-).
    destruct (run st1 ticks) as [[st2 out2] s2] eqn:E.
    injection Hrun as <- <- <-. rewrite records_app, forallb_app, H1.
    exact (IH _ _ _ _ E).
Qed.

(** C1. As long as the log can be written, the records the program appends
    alternate entry, exit, entry, exit, starting with an entry; there are
    as many entries as exits, or one more when the run ends with the alert
    active. *)
Theorem C1_events_alternate (ticks : list Tick) :
  Forall (fun tk => log_ok tk = true) ticks ->
  let '(st, out, _) := main ticks in
  alternates ENTER (events out) = true
  /\ count ENTER (events out)
     = (count LEAVE (events out) + (if alert_active st then 1 else 0))%nat.
Proof.
  intros Hok. pose proof (run_events ticks initial Hok) as H. unfold main.
  destruct (run initial ticks) as [[st out] s]. cbn in H.
  destruct H as [Halt Hcount].
  destruct s; try (split; [exact Halt | lia]).
  rewrite events_app. cbn. rewrite app_nil_r. split; [exact Halt | lia].
Qed.

(** C3. In every state the loop reaches by a pass that evaluated a frame,
    the alert is active exactly when that frame, the last one evaluated,
    held a qualifying detection; [object_in_zone] agrees with it. *)
Theorem C3_alert_tracks_last_frame (tk : Tick) (st : State) :
  reachable (Some tk) st ->
  (alert_active st = true <-> occupied tk)
  /\ object_in_zone st = alert_active st.
Proof.
  intros H. inversion H as [|last st0 tk0 st1 _ Hev]; subst.
  destruct (evaluated_alert _ _ _ Hev) as [Hiff Hobj].
  rewrite <- hits_occupied. now split.
Qed.

(** C5. When the camera returns no frame, the pass leaves the state as it
    was and writes nothing to the log, the loop ends, and the program
    releases the camera once: the run ends with the failure message,
    [cap.release()] and [cv2.destroyAllWindows()], whatever ticks might
    have followed. *)
Theorem C5_failed_read_stops_the_loop (pre rest : list Tick) (tk : Tick)
        (st : State) (out : list effect) :
  run initial pre = (st, out, Running) ->
  ret tk = false ->
  let '(st', out', s) := main (pre ++ tk :: rest) in
  st' = st
  /\ s = Exited
  /\ out' = (out ++ [Print "Failed to capture frame."; Release; DestroyAllWindows])%list
  /\ List.length (filter is_release out') = 1%nat
  /\ records out' = records out.
Proof.
  intros Hpre Hret. unfold main. rewrite (run_app pre initial st out _ Hpre).
  cbn [run]. rewrite (loop_body_failed_read st tk Hret).
  pose proof (run_no_release _ _ _ _ _ Hpre) as Hrel.
  repeat split.
  - now rewrite <- app_assoc.
  - rewrite <- app_assoc, filter_app, length_app. cbn.
    assert (Hnone : filter is_release out = []).
    { clear -Hrel. induction out as [|e l IH]; [reflexivity|]. cbn in *.
      destruct (is_release e); [discriminate Hrel | auto]. }
    now rewrite Hnone.
  - rewrite <- app_assoc, records_app. cbn. now rewrite app_nil_r.
Qed.

(** C10. Every entry record the program appends holds at least one
    object. *)
Theorem C10_entry_records_have_objects (ticks : list Tick) :
  let '(_, out, _) := main ticks in
  forallb enter_has_objects (records out) = true.
Proof.
  unfold main. destruct (run initial ticks) as [[st out] s] eqn:E.
  pose proof (run_enter_has_objects _ _ _ _ _ E) as H.
  destruct s; try exact H.
  rewrite records_app, forallb_app, H. reflexivity.
Qed.


Lemma in_records (r : json) (out : list effect) :
  In (LogAppend r) out -> In r (records out).
Proof.
  induction out as [|e out IH]; [easy|].
  intros [->|H]; [now left|]. destruct e; cbn; auto.
Qed.

Lemma loads_log_line (v : json) :
  Forall float_text_ok (floats_of v) -> loads (log_line v) = Some v.
Proof.
  intros Hok. unfold loads, log_line.
  rewrite parse_value_dumps; [reflexivity | | exact Hok | reflexivity].
  rewrite length_append. cbn. lia.
Qed.

Lemma floats_of_objects (hits : list ZoneHit) :
  flat_map floats_of (map object_json hits) = map confidence hits.
Proof.
  induction hits as [|h hits IH]; [reflexivity|].
  cbn [map flat_map]. rewrite IH. unfold object_json, coords_json.
  now destruct (coords h) as [[[x1 y1] x2] y2].
Qed.

Lemma floats_of_enter_alert (t : datetime) (hits : list ZoneHit) :
  floats_of (enter_alert t hits) = map confidence hits.
Proof.
  unfold enter_alert. cbn [floats_of flat_map snd app].
  now rewrite app_nil_r, floats_of_objects.
Qed.

(** The entry record of a pass is the dictionary [alert] built from the
    boxes that passed the filter. *)
Lemma logged_entry_record (st st' : State) (tk : Tick)
      (out : list effect) (c : control) (r : json) :
  loop_body st tk = (st', out, c) ->
  In (LogAppend r) out ->
  kind_of r = Some ENTER ->
  r = enter_alert (now tk)
        (map hit_of (filter (qualifies settings) (List.concat (results tk)))).
Proof.
  intros Hpass Hin Hkind. apply in_records in Hin.
  destruct (ret tk) eqn:Hret.
  - rewrite (loop_body_read st tk Hret) in Hpass. cbv zeta in Hpass.
    rewrite detections_in_zone_filter in Hpass.
    destruct (map hit_of _) as [|h hs] eqn:E;
      destruct (alert_active st), (log_ok tk); injection Hpass as <- <- <-;
      cbn in Hin; try (now destruct Hin); destruct Hin as [<-|[]];
      first [discriminate Hkind | reflexivity].
  - rewrite (loop_body_failed_read st tk Hret) in Hpass.
    injection Hpass as <- <- <-. destruct Hin.
Qed.

(** The dictionary [alert] reads back from its log line. *)
Lemma enter_alert_reads_back (t : datetime) (kept : list Box) :
  Forall (fun box => float_text_ok (round (conf box) 2)) kept ->
  loads (log_line (enter_alert t (map hit_of kept)))
  = Some (JObject [("event", JString "Object ENTERED red zone");
                   ("timestamp", JString (strftime_date_time t));
                   ("objects", JArray (map logged_object kept))]).
Proof.
  intros Hfloats. rewrite loads_log_line.
  - unfold enter_alert. rewrite map_map.
    rewrite (map_ext _ _ object_json_hit_of). reflexivity.
  - rewrite floats_of_enter_alert, map_map. cbn [confidence hit_of].
    now apply Forall_map.
Qed.

(** C4. An entry record the program appends reads back from its log line
    as an object with the event tag, the time stamp and, for each box that
    passed the filter and in their order, the label, the confidence rounded
    to two places and the four coordinates. The text of each rounded
    confidence is taken to be one that [float] reads back to the same
    number, as Python's [repr] provides. *)
Theorem C4_entry_record_reads_back (st st' : State) (tk : Tick)
        (out : list effect) (c : control) (r : json) :
  loop_body st tk = (st', out, c) ->
  In (LogAppend r) out ->
  kind_of r = Some ENTER ->
  let kept := filter (qualifies settings) (List.concat (results tk)) in
  Forall (fun box => float_text_ok (round (conf box) 2)) kept ->
  loads (log_line r)
  = Some (JObject [("event", JString "Object ENTERED red zone");
                   ("timestamp", JString (strftime_date_time (now tk)));
                   ("objects", JArray (map logged_object kept))]).
Proof.
  intros Hpass Hin Hkind kept Hfloats.
  rewrite (logged_entry_record st st' tk out c r Hpass Hin Hkind). fold kept.
  apply enter_alert_reads_back. exact Hfloats.
Qed.

(** C6, amended. The pass does not look at the value [cv2.imwrite]
    returns: state, effects and exit of the pass are the same whether the
    snapshot was saved or not. Whenever a snapshot is attempted, the entry
    record was appended to the log just before it, and the message that the
    snapshot was saved follows it. *)
Theorem C6_log_line_precedes_snapshot (st : State) (tk : Tick) (saved : bool) :
  loop_body st (with_snap saved tk) = loop_body st tk
  /\ (forall st' out c path,
        loop_body st tk = (st', out, c) ->
        In (ImWrite path) out ->
        exists r,
          kind_of r = Some ENTER
          /\ out = [LogAppend r; ImWrite path;
                    Print ("[ALERT] Object entered red zone! Snapshot saved: " ++ path)]).
Proof using round.
  split; [reflexivity|].
  intros st' out c path Hpass Hin.
  pass_cases st tk Hpass; cbn in Hin;
    repeat (destruct Hin as [Hin|Hin]; [try discriminate Hin|]);
    try (now destruct Hin).
  injection Hin as <-. eexists. split; [|reflexivity]. reflexivity.
Qed.

(** C7, amended. When a record is due (the alert goes on or off) and the
    log cannot be written, the exception leaves the program: the run ends
    as crashed, with the effects it had before that pass and nothing more
    (no record, no release of the camera), whatever ticks might have
    followed. *)
Theorem C7_log_failure_ends_the_run (pre rest : list Tick) (tk : Tick)
        (st : State) (out : list effect) :
  run initial pre = (st, out, Running) ->
  ret tk = true ->
  log_ok tk = false ->
  (occupied tk /\ alert_active st = false) \/ (~ occupied tk /\ alert_active st = true) ->
  exists st', main (pre ++ tk :: rest) = (st', out, Crashed)
              /\ alert_active st' = true.
Proof.
  intros Hpre Hret Hlog Hdue. unfold main. rewrite (run_app pre initial st out _ Hpre).
  cbn [run]. rewrite (loop_body_read st tk Hret), Hlog. cbv zeta.
  rewrite <- !hits_occupied in Hdue.
  destruct (detections_in_zone settings (results tk)) as [|h hs];
    destruct Hdue as [[Hocc ->]|[Hocc ->]]; try (now destruct Hocc);
    eexists; rewrite app_nil_r; split; reflexivity.
  Unshelve. all: exact initial.
Qed.

End Monitor.

(** * The model on the sample frames

    From here on the float built-ins are the executable ones. *)

(** The line written for the person, character by character. *)
Lemma sample_log_line :
  log_line repr_decimal (enter_alert noon [hit_of round_decimal person])
  = "{" ++ quote "event" ++ ": " ++ quote "Object ENTERED red zone" ++ ", "
    ++ quote "timestamp" ++ ": " ++ quote "2025-03-14 12:00:07" ++ ", "
    ++ quote "objects" ++ ": [{" ++ quote "name" ++ ": " ++ quote "person" ++ ", "
    ++ quote "confidence" ++ ": 0.9, "
    ++ quote "coords" ++ ": [300, 200, 350, 250]}]}" ++ String newline "".
Proof. vm_compute. reflexivity. Qed.

(** A box below the threshold is dropped, wherever it is: the frame counts
    as empty and the pass changes nothing. *)
Lemma sample_faint_box :
  qualifies settings faint_box = false
  /\ loop_body round_decimal initial (mkTick true [[faint_box]] noon true true 0)
     = (initial, [], Next).
Proof. split; vm_compute; reflexivity. Qed.

(** The loop is left when the low byte of the key code is that of q. *)
Lemma sample_quit :
  main round_decimal [mkTick true [] noon true true (113 + 256); person_tick]
  = (initial, [Release; DestroyAllWindows], Exited).
Proof. vm_compute. reflexivity. Qed.

(** The person arrives, stays, leaves and comes back: entry, exit, entry. *)
Lemma C1_sample_run :
  Forall (fun tk => log_ok tk = true) [person_tick; person_tick; empty_tick; person_tick]
  /\ (let '(st, out, _) :=
        main round_decimal [person_tick; person_tick; empty_tick; person_tick] in
      alternates ENTER (events out) = true
      /\ count ENTER (events out)
         = (count LEAVE (events out) + (if alert_active st then 1 else 0))%nat).
Proof.
  split.
  - repeat constructor.
  - apply (C1_events_alternate round_decimal). repeat constructor.
Defined.

(** The box on the corner of the zone, with the confidence of the
    threshold, passes the filter. *)
Lemma C2_corner_on_threshold_qualifies :
  is_nan (conf corner_box) = false
  /\ is_nan (threshold settings) = false
  /\ center (xyxy corner_box) = (200, 150)
  /\ (threshold settings <=? conf corner_box)%float = true
  /\ qualifies settings corner_box = true.
Proof.
  do 4 (split; [reflexivity|]).
  pose proof (C2_zone_filter_classifies round_decimal settings [] corner_box
                eq_refl eq_refl) as H.
  cbn [center xyxy corner_box] in H. apply H. cbn. repeat split; discriminate.
Defined.

(** After the pass over the frame with the person the alert is active. *)
Lemma C3_sample_reachable :
  reachable round_decimal (Some person_tick) (mkState true true false)
  /\ ((alert_active (mkState true true false) = true <-> occupied person_tick)
      /\ object_in_zone (mkState true true false)
         = alert_active (mkState true true false)).
Proof.
  assert (H : reachable round_decimal (Some person_tick) (mkState true true false)).
  { apply (reachable_pass round_decimal None initial); [constructor|].
    eapply (evaluated_pass round_decimal initial person_tick).
    - reflexivity.
    - vm_compute. reflexivity.
    - discriminate. }
  split; [exact H | exact (C3_alert_tracks_last_frame round_decimal _ _ H)].
Defined.

(** The entry record of the person reads back from its line. *)
Lemma C4_sample_entry_line :
  loop_body round_decimal initial person_tick
  = (mkState true true false,
     [LogAppend (enter_alert noon [hit_of round_decimal person]);
      ImWrite "redzone_capture_120007.jpg";
      Print "[ALERT] Object entered red zone! Snapshot saved: redzone_capture_120007.jpg"],
     Next)
  /\ kind_of (enter_alert noon [hit_of round_decimal person]) = Some ENTER
  /\ Forall (fun box => float_text_ok repr_decimal float_of_decimal
                          (round_decimal (conf box) 2))
            (filter (qualifies settings) (List.concat (results person_tick)))
  /\ loads float_of_decimal
       (log_line repr_decimal (enter_alert noon [hit_of round_decimal person]))
     = Some (JObject
               [("event", JString "Object ENTERED red zone");
                ("timestamp", JString "2025-03-14 12:00:07");
                ("objects",
                 JArray
                   [JObject
                      [("name", JString "person");
                       ("confidence", JFloat 0x1.ccccccccccccdp-1%float);
                       ("coords", JArray [JInt 300; JInt 200; JInt 350; JInt 250])]])]).
Proof.
  assert (Hpass : loop_body round_decimal initial person_tick
                  = (mkState true true false,
                     [LogAppend (enter_alert noon [hit_of round_decimal person]);
                      ImWrite "redzone_capture_120007.jpg";
                      Print "[ALERT] Object entered red zone! Snapshot saved: redzone_capture_120007.jpg"],
                     Next)) by (vm_compute; reflexivity).
  assert (Hok : Forall (fun box => float_text_ok repr_decimal float_of_decimal
                                     (round_decimal (conf box) 2))
                       (filter (qualifies settings) (List.concat (results person_tick)))).
  { constructor; [|constructor]. repeat split; vm_compute; reflexivity. }
  split; [exact Hpass|]. split; [reflexivity|]. split; [exact Hok|].
  exact (C4_entry_record_reads_back round_decimal repr_decimal float_of_decimal
           _ _ _ _ _ _ Hpass (or_introl eq_refl) eq_refl Hok).
Defined.

(** The camera fails after the person was logged: nothing is added to the
    log and the camera is released once. *)
Lemma C5_sample_failed_read :
  let logged :=
    [LogAppend (enter_alert noon [hit_of round_decimal person]);
     ImWrite "redzone_capture_120007.jpg";
     Print "[ALERT] Object entered red zone! Snapshot saved: redzone_capture_120007.jpg"] in
  run round_decimal initial [person_tick] = (mkState true true false, logged, Running)
  /\ ret failed_read = false
  /\ (let '(st', out', s) :=
        main round_decimal ([person_tick] ++ failed_read :: [empty_tick]) in
      st' = mkState true true false
      /\ s = Exited
      /\ out' = (logged
                 ++ [Print "Failed to capture frame."; Release; DestroyAllWindows])%list
      /\ List.length (filter is_release out') = 1%nat
      /\ records out' = records logged).
Proof.
  intros logged.
  assert (Hpre : run round_decimal initial [person_tick]
                 = (mkState true true false, logged, Running))
    by (vm_compute; reflexivity).
  split; [exact Hpre|]. split; [reflexivity|].
  exact (C5_failed_read_stops_the_loop round_decimal [person_tick] [empty_tick]
           failed_read _ _ Hpre eq_refl).
Defined.

(** The snapshot is not saved; the entry record was appended before it. *)
Lemma C6_sample_unsaved_snapshot :
  In (ImWrite "redzone_capture_120007.jpg")
     (snd (fst (loop_body round_decimal initial unsaved_tick)))
  /\ exists r,
       kind_of r = Some ENTER
       /\ snd (fst (loop_body round_decimal initial unsaved_tick))
          = [LogAppend r; ImWrite "redzone_capture_120007.jpg";
             Print ("[ALERT] Object entered red zone! Snapshot saved: "
                    ++ "redzone_capture_120007.jpg")].
Proof.
  assert (Hin : In (ImWrite "redzone_capture_120007.jpg")
                   (snd (fst (loop_body round_decimal initial unsaved_tick))))
    by (right; left; reflexivity).
  split; [exact Hin|].
  apply (proj2 (C6_log_line_precedes_snapshot round_decimal initial unsaved_tick false)
           (fst (fst (loop_body round_decimal initial unsaved_tick)))
           _
           (snd (loop_body round_decimal initial unsaved_tick))).
  - reflexivity.
  - exact Hin.
Defined.

(** The log cannot be written as the person arrives: the run crashes. *)
Lemma C7_sample_unwritable_log :
  run round_decimal initial [] = (initial, [], Running)
  /\ ret unwritable_tick = true
  /\ log_ok unwritable_tick = false
  /\ (occupied unwritable_tick /\ alert_active initial = false)
  /\ exists st',
       main round_decimal ([] ++ unwritable_tick :: [empty_tick]) = (st', [], Crashed)
       /\ alert_active st' = true.
Proof.
  assert (Hocc : occupied unwritable_tick).
  { exists person. split; [left; reflexivity | reflexivity]. }
  do 3 (split; [reflexivity|]). split; [split; [exact Hocc | reflexivity]|].
  apply (C7_log_failure_ends_the_run round_decimal [] [empty_tick] unwritable_tick
           initial []); try reflexivity.
  left. split; [exact Hocc | reflexivity].
Defined.

(** With non-negative sums floor and truncation agree. *)
Lemma C8_sample_center :
  0 <= 1 + 4 /\ 0 <= 2 + 5
  /\ center (1, 2, 4, 5) = truncated_center (1, 2, 4, 5).
Proof.
  split; [discriminate|]. split; [discriminate|].
  apply (proj2 (proj2 (C8_center_is_floor_division 1 2 4 5))); discriminate.
Defined.

(** ** Confidences in the unit interval

    For the executable built-ins the hypothesis of C4 on the float text
    holds for every confidence the data model allows. *)

Lemma digits2_pos_bound (m : positive) : Zpos m < 2 ^ Zpos (digits2_pos m).
Proof.
  induction m as [p IH|p IH|]; cbn [digits2_pos]; rewrite ?Pos2Z.inj_succ, ?Z.pow_succ_r by lia; lia.
Qed.

Lemma div_half_even_bound (n d : Z) :
  0 < d -> 0 <= n <= 100 * d -> 0 <= div_half_even n d <= 100.
Proof.
  intros Hd Hn. unfold div_half_even.
  pose proof (Z.div_mod n d ltac:(lia)) as Hdm.
  pose proof (Z.mod_pos_bound n d Hd) as Hr.
  assert (Hq : 0 <= n / d <= 100).
  { split; [apply Z.div_pos; lia | apply Z.div_le_upper_bound; lia]. }
  destruct (Z.eq_dec (n / d) 100) as [E|E].
  - rewrite E in *. assert (n mod d = 0) by lia.
    replace (2 * (n mod d) <? d) with true by (symmetry; apply Z.ltb_lt; lia). lia.
  - destruct (2 * (n mod d) <? d); [lia|].
    destruct (d <? 2 * (n mod d)); [lia|].
    destruct (Z.even (n / d)); lia.
Qed.

Lemma sign_of_finite (x : float) (s : bool) (m : positive) (e : Z) :
  Prim2SF x = S754_finite s m e -> get_sign x = s.
Proof.
  unfold Prim2SF.
  destruct (PrimFloat.is_nan x); [discriminate|].
  destruct (PrimFloat.is_zero x); [discriminate|].
  destruct (PrimFloat.is_infinity x); [discriminate|].
  destruct (Z.frexp x) as [r ex].
  destruct (shr_fexp prec emax _ _ _) as [shr e'].
  destruct (shr_m shr); try discriminate.
  now intros [= -> _ _].
Qed.

Lemma below_one (m : positive) (e : Z) :
  SFleb (S754_finite false m e) (S754_finite false 4503599627370496 (-52)) = true ->
  e < -52 \/ (e = -52 /\ Zpos m <= 4503599627370496).
Proof.
  unfold SFleb, SFcompare.
  destruct (Z.compare_spec e (-52)) as [He|He|He]; [right|left; exact He|discriminate].
  split; [exact He|].
  pose proof (Pos.compare_spec m 4503599627370496) as Hc.
  unfold Pos.compare in Hc.
  destruct Hc as [Hc|Hc|Hc]; try discriminate.
  - rewrite Hc. apply Z.le_refl.
  - apply Z.lt_le_incl. exact Hc.
Qed.

Lemma mantissa_bound (m : positive) (e : Z) :
  valid_binary (S754_finite false m e) = true -> Zpos m < 2 ^ 53.
Proof.
  unfold valid_binary, bounded, canonical_mantissa, fexp, SpecFloat.emin.
  intros H. apply andb_true_iff in H as [Hcan _]. apply Z.eqb_eq in Hcan.
  pose proof (digits2_pos_bound m) as Hm.
  assert (Hd : Zpos (digits2_pos m) <= 53).
  { change prec with 53 in Hcan. change emax with 1024 in Hcan. lia. }
  apply Z.lt_le_trans with (1 := Hm). apply Z.pow_le_mono_r; lia.
Qed.

Lemma round_decimal_unit (x : float) :
  unit_interval x ->
  exists s k, 0 <= k <= 100 /\ (s = true -> k = 0) /\ round_decimal x 2 = hundredth s k.
Proof.
  intros [H0 H1]. rewrite FloatAxioms.leb_spec in H0, H1.
  pose proof (Prim2SF_valid x) as Hvalid.
  unfold round_decimal, scaled, hundredth.
  change (Prim2SF 0) with (S754_zero false) in H0.
  change (Prim2SF 1) with (S754_finite false 4503599627370496 (-52)) in H1.
  destruct (Prim2SF x) as [s|s| |s m e] eqn:E.
  - exists (get_sign x), 0. repeat split; lia.
  - destruct s; discriminate.
  - discriminate.
  - destruct s; [discriminate H0|].
    rewrite (sign_of_finite x _ _ _ E).
    apply mantissa_bound in Hvalid. apply below_one in H1.
    assert (Hneg : (0 <=? e) = false) by (apply Z.leb_gt; lia).
    rewrite Hneg. change (10 ^ 2) with 100.
    exists false, (div_half_even (Z.pos m * 100) (2 ^ (- e))).
    split; [|split; [discriminate | reflexivity]].
    apply div_half_even_bound.
    + apply Z.pow_pos_nonneg; lia.
    + split; [lia|].
      assert (Zpos m <= 2 ^ (- e)); [|lia].
      destruct H1 as [He|[-> Hle]]; [|exact Hle].
      assert (2 ^ 53 <= 2 ^ (- e)) by (apply Z.pow_le_mono_r; lia).
      lia.
Qed.

Lemma text_ok_b_sound (x : float) :
  text_ok_b x = true -> float_text_ok repr_decimal float_of_decimal x.
Proof.
  unfold text_ok_b, float_text_ok. rewrite !andb_true_iff. intros [[Hall Hany] Hread].
  repeat split; try assumption.
  destruct (float_of_decimal (repr_decimal x)) as [y|]; [|discriminate Hread].
  apply FloatAxioms.Leibniz.eqb_spec in Hread. now subst.
Qed.

Lemma hundredths_checked :
  forallb (fun n => text_ok_b (hundredth false (Z.of_nat n))) (seq 0 101) = true
  /\ text_ok_b (hundredth true 0) = true.
Proof. split; vm_compute; reflexivity. Qed.

Lemma hundredth_text_ok (s : bool) (k : Z) :
  0 <= k <= 100 -> (s = true -> k = 0) ->
  float_text_ok repr_decimal float_of_decimal (hundredth s k).
Proof.
  intros Hk Hs. apply text_ok_b_sound. destruct hundredths_checked as [Hpos Hneg].
  destruct s.
  - now rewrite (Hs eq_refl).
  - rewrite forallb_forall in Hpos. rewrite <- (Z2Nat.id k) by lia.
    apply Hpos, in_seq. lia.
Qed.

(** With the executable built-ins, an entry record reads back whenever the
    confidences of the frame lie between 0 and 1. *)
Lemma entry_record_reads_back_in_range (st st' : State) (tk : Tick)
      (out : list effect) (c : control) (r : json) :
  loop_body round_decimal st tk = (st', out, c) ->
  In (LogAppend r) out ->
  kind_of r = Some ENTER ->
  Forall (fun box => unit_interval (conf box)) (List.concat (results tk)) ->
  loads float_of_decimal (log_line repr_decimal r)
  = Some (JObject
            [("event", JString "Object ENTERED red zone");
             ("timestamp", JString (strftime_date_time (now tk)));
             ("objects",
              JArray (map (logged_object round_decimal)
                          (filter (qualifies settings) (List.concat (results tk)))))]).
Proof.
  intros Hpass Hin Hkind Hrange.
  rewrite (logged_entry_record round_decimal st st' tk out c r Hpass Hin Hkind).
  apply enter_alert_reads_back.
  apply Forall_forall. intros box Hbox. apply filter_In in Hbox as [Hbox _].
  rewrite Forall_forall in Hrange.
  destruct (round_decimal_unit (conf box) (Hrange box Hbox)) as (s & k & Hk & Hs & ->).
  now apply hundredth_text_ok.
Qed.

(** ** Where the code departs from the specification *)

(** C6 as stated fails. The snapshot of this pass is not saved, and the
    pass is the same, effect for effect, as the pass in which it is saved:
    it still reports the snapshot as saved. *)
Lemma C6_snapshot_failure_goes_unreported :
  snap_ok unsaved_tick = false
  /\ loop_body round_decimal initial unsaved_tick
     = (mkState true true false,
        [LogAppend (enter_alert noon [hit_of round_decimal person]);
         ImWrite "redzone_capture_120007.jpg";
         Print "[ALERT] Object entered red zone! Snapshot saved: redzone_capture_120007.jpg"],
        Next)
  /\ ~ snapshot_failure_reported round_decimal initial unsaved_tick.
Proof.
  split; [reflexivity|]. split; [vm_compute; reflexivity|].
  intros H. apply H. reflexivity.
Qed.

(** C7 as stated fails. The log cannot be written when the person arrives:
    the run ends there as crashed, and the frame that follows, which would
    have written an exit record, is never processed. *)
Lemma C7_log_failure_crashes_the_loop :
  main round_decimal [unwritable_tick; empty_tick]
  = (mkState true true false, [], Crashed)
  /\ main round_decimal [unwritable_tick; empty_tick]
     = main round_decimal [unwritable_tick]
  /\ snd (fst (loop_body round_decimal (mkState true true false) empty_tick))
     = [LogAppend (exit_event noon); Print "[CLEARED] Object left red zone."].
Proof. repeat split; vm_compute; reflexivity. Qed.

(** C8 as stated fails. With the odd negative sums -3 and -1 the center is
    (-2, -1); truncation toward zero gives (-1, 0). *)
Lemma C8_negative_sum_is_floored :
  center (-3, -1, 0, 0) = (-2, -1)
  /\ truncated_center (-3, -1, 0, 0) = (-1, 0)
  /\ center (-3, -1, 0, 0) <> truncated_center (-3, -1, 0, 0).
Proof. repeat split. discriminate. Qed.

(** * Further properties of the script *)

(** ** The preview *)

Lemma half_inside (d : Z) : 0 <= d -> 0 <= d / 2 /\ 0 <= d - d / 2 - d / 2 <= 1.
Proof.
  intros Hd. pose proof (Z.div_mod d 2 ltac:(lia)).
  pose proof (Z.mod_pos_bound d 2 ltac:(lia)). lia.
Qed.

Lemma slice_inside (n start len : Z) :
  0 <= start -> 0 <= len -> start + len <= n ->
  slice_length n start (start + len) = len.
Proof.
  intros H1 H2 H3. unfold slice_length, slice_bound.
  destruct (Z.ltb_spec (start + len) 0), (Z.ltb_spec start 0); lia.
Qed.

Lemma slice_at_most (n start stop : Z) : 0 <= n -> slice_length n start stop <= n.
Proof.
  intros Hn. unfold slice_length, slice_bound.
  destruct (Z.ltb_spec stop 0), (Z.ltb_spec start 0); lia.
Qed.

Lemma inside_canvas_paste_ok (b : Letterbox) :
  inside_canvas b = true -> letterbox_paste_ok b = true.
Proof.
  unfold inside_canvas, letterbox_paste_ok, paste_ok, assignable.
  rewrite !andb_true_iff, !Z.leb_le. intros [[[[[Hw Hh] Hx] Hxw] Hy] Hyh].
  rewrite !slice_inside by lia. now rewrite !Z.eqb_refl.
Qed.

(** X1. The paste of the frame on the canvas of the monitor goes through
    exactly when the monitor is at least 640 wide and 480 high; on a
    smaller monitor the slice is too short and numpy raises. *)
Theorem screen_paste_needs_a_large_monitor (screen_w screen_h : Z) :
  0 <= screen_w -> 0 <= screen_h ->
  (screen_paste_ok screen_w screen_h = true <-> 640 <= screen_w /\ 480 <= screen_h).
Proof.
  intros Hw Hh. unfold screen_paste_ok, screen_offsets, paste_ok, assignable, target_w, target_h.
  rewrite andb_true_iff, !orb_true_iff, !Z.eqb_eq.
  pose proof (slice_at_most screen_w ((screen_w - 640) / 2) ((screen_w - 640) / 2 + 640) Hw).
  pose proof (slice_at_most screen_h ((screen_h - 480) / 2) ((screen_h - 480) / 2 + 480) Hh).
  split.
  - intros [[H1|H1] [H2|H2]]; try discriminate H1; try discriminate H2.
    split; [now rewrite <- H2 in H | now rewrite <- H1 in H0].
  - intros [H1 H2].
    pose proof (half_inside (screen_w - 640) ltac:(lia)).
    pose proof (half_inside (screen_h - 480) ltac:(lia)).
    rewrite !slice_inside by lia. auto.
Qed.

(** X2. In a window of at least 640 by 480 the preview keeps that size and
    is centered: it lies within the canvas, the margins left and right,
    and above and below, differ by at most one pixel, and the paste goes
    through. *)
Theorem letterbox_of_a_large_window (win_w win_h : Z) :
  640 <= win_w -> 480 <= win_h ->
  exists b,
    letterbox win_w win_h = Some b
    /\ canvas_w b = win_w /\ canvas_h b = win_h
    /\ disp_w b = 640 /\ disp_h b = 480
    /\ 0 <= x0 b /\ 0 <= y0 b
    /\ 0 <= (win_w - (x0 b + 640)) - x0 b <= 1
    /\ 0 <= (win_h - (y0 b + 480)) - y0 b <= 1
    /\ letterbox_paste_ok b = true.
Proof.
  intros Hw Hh. unfold letterbox, preview_size, target_w, target_h.
  rewrite !Z.max_l by lia.
  replace (win_w <? 640) with false by (symmetry; apply Z.ltb_ge; lia).
  replace (win_h <? 480) with false by (symmetry; apply Z.ltb_ge; lia).
  cbn [orb]. eexists. split; [reflexivity|]. cbn [canvas_w canvas_h disp_w disp_h x0 y0].
  pose proof (half_inside (win_w - 640) ltac:(lia)).
  pose proof (half_inside (win_h - 480) ltac:(lia)).
  repeat split; try lia.
  apply inside_canvas_paste_ok. unfold inside_canvas. cbn [canvas_w canvas_h disp_w disp_h x0 y0].
  rewrite !andb_true_iff, !Z.leb_le. lia.
Qed.

Lemma forallb2_spec {A B : Type} (f : A -> B -> bool) (la : list A) (lb : list B) :
  forallb2 f la lb = true -> forall a b, In a la -> In b lb -> f a b = true.
Proof.
  unfold forallb2. intros H a b Ha Hb.
  rewrite forallb_forall in H. specialize (H a Ha).
  rewrite forallb_forall in H. exact (H b Hb).
Qed.

Lemma small_windows_checked :
  forallb2 rows_fit (map (axis_row target_w) (lengths 639))
                    (map (axis_row target_h) (lengths 479)) = true.
Proof. vm_compute. reflexivity. Qed.

Lemma in_lengths (n : nat) (k : Z) : 1 <= k <= Z.of_nat n -> In k (lengths n).
Proof.
  intros Hk. unfold lengths. apply in_map_iff. exists (Z.to_nat (k - 1)). split.
  - lia.
  - apply in_seq. lia.
Qed.

Lemma preview_size_small (w h : Z) :
  w < 640 ->
  preview_size w h
  = (if (true_div h target_h <? true_div w target_w)%float
     then size_of_scale (true_div h target_h)
     else size_of_scale (true_div w target_w)).
Proof.
  intros Hw. unfold preview_size, py_min, size_of_scale.
  replace (w <? target_w) with true by (symmetry; apply Z.ltb_lt; exact Hw).
  cbn [orb]. now destruct (true_div h target_h <? true_div w target_w)%float.
Qed.

Lemma small_window_rows_fit (w h : Z) :
  1 <= w <= 639 -> 1 <= h <= 479 ->
  rows_fit (axis_row target_w w) (axis_row target_h h) = true.
Proof.
  intros Hw Hh.
  apply (forallb2_spec rows_fit _ _ small_windows_checked).
  - apply in_map, in_lengths. lia.
  - apply in_map, in_lengths. lia.
Qed.

(** X3. In a window below 640 by 480 in both directions (a window that
    reports no size counts as one pixel) the scaled preview is at least
    one pixel wide and high and lies within the canvas, so the paste goes
    through. *)
Theorem preview_fits_a_small_window (win_w win_h : Z) :
  win_w < 640 -> win_h < 480 ->
  exists b,
    letterbox win_w win_h = Some b
    /\ canvas_w b = Z.max win_w 1 /\ canvas_h b = Z.max win_h 1
    /\ inside_canvas b = true
    /\ letterbox_paste_ok b = true.
Proof.
  intros Hw Hh. unfold letterbox.
  set (w := Z.max win_w 1). set (h := Z.max win_h 1).
  assert (Hw' : 1 <= w <= 639) by (unfold w; lia).
  assert (Hh' : 1 <= h <= 479) by (unfold h; lia).
  rewrite preview_size_small by lia.
  pose proof (small_window_rows_fit w h Hw' Hh') as Hfit.
  unfold rows_fit, axis_row in Hfit.
  destruct (if (true_div h target_h <? true_div w target_w)%float
            then size_of_scale (true_div h target_h)
            else size_of_scale (true_div w target_w)) as [[dw dh]|];
    [|discriminate Hfit].
  eexists. split; [reflexivity|]. cbn [canvas_w canvas_h].
  repeat split; [exact Hfit|]. now apply inside_canvas_paste_ok.
Qed.

(** ** Clock readings in file names and log lines *)

Lemma digit_char_inj (a b : N) :
  (a < 10)%N -> (b < 10)%N -> digit_char a = digit_char b -> a = b.
Proof.
  intros Ha Hb H. unfold digit_char in H.
  rewrite !N.mod_small in H by assumption.
  apply (f_equal N_of_ascii) in H.
  rewrite !N_ascii_embedding in H by lia. lia.
Qed.

Lemma two_digits_inj (a b : N) :
  (a < 100)%N -> (b < 100)%N -> two_digits a = two_digits b -> a = b.
Proof.
  intros Ha Hb H. unfold two_digits in H. injection H as H1 H2.
  assert (Hq : (a / 10 = b / 10)%N).
  { apply digit_char_inj; try exact H1;
      apply N.Div0.div_lt_upper_bound; lia. }
  unfold digit_char in H2. apply (f_equal N_of_ascii) in H2.
  pose proof (N.mod_upper_bound a 10 ltac:(lia)).
  pose proof (N.mod_upper_bound b 10 ltac:(lia)).
  rewrite !N_ascii_embedding in H2 by lia.
  pose proof (N.div_mod a 10 ltac:(lia)). pose proof (N.div_mod b 10 ltac:(lia)). lia.
Qed.



(** X5. The name of a snapshot holds the time of day only: two well-formed
    readings give the same file name exactly when hour, minute and second
    agree, whatever their dates. *)
Theorem snapshot_name_is_the_time_of_day (t1 t2 : datetime) :
  well_formed t1 -> well_formed t2 ->
  (snapshot_name t1 = snapshot_name t2
   <-> hour t1 = hour t2 /\ minute t1 = minute t2 /\ second t1 = second t2).
Proof.
  intros (_ & _ & _ & h1 & m1 & s1) (_ & _ & _ & h2 & m2 & s2).
  unfold snapshot_name, strftime_HMS. split.
  - intros H.
    assert (Hparts : two_digits (hour t1) = two_digits (hour t2)
                     /\ two_digits (minute t1) = two_digits (minute t2)
                     /\ two_digits (second t1) = two_digits (second t2)).
    { unfold two_digits in *. cbn [append] in H.
      injection H as E1 E2 E3 E4 E5 E6. repeat split; congruence. }
    destruct Hparts as (Eh & Em & Es).
    apply two_digits_inj in Eh, Em, Es; lia.
  - intros (-> & -> & ->). reflexivity.
Qed.

(** ** More on the filter, the loop and the log *)

Section Further.

Variable round : float -> Z -> float.
Variable float_repr : float -> string.
Variable float_of_string : string -> option float.

Lemma SFcompare_same (a : spec_float) : a <> S754_nan -> SFcompare a a = Some Eq.
Proof.
  destruct a as [s|s| |s m e]; intros H; cbn.
  - reflexivity.
  - now destruct s.
  - now destruct H.
  - rewrite Z.compare_refl, Pos.compare_cont_refl. now destruct s.
Qed.

Lemma is_nan_spec (x : float) : is_nan x = true -> Prim2SF x = S754_nan.
Proof.
  unfold is_nan. rewrite FloatAxioms.eqb_spec. unfold SFeqb. intros H.
  destruct (Prim2SF x) as [s|s| |s m e] eqn:E; try reflexivity;
    rewrite SFcompare_same in H by discriminate; discriminate H.
Qed.

(** X6. A confidence that is NaN passes the threshold test, since
    [conf < CONFIDENCE_THRESHOLD] is false for it: such a box is kept
    whenever its center is in the zone. *)
Theorem nan_confidence_passes_the_threshold (cfg : Config) (acc : list ZoneHit)
        (box : Box) :
  is_nan (conf box) = true ->
  qualifies cfg box = inside_zone (zone cfg) (center (xyxy box))
  /\ visit_box round cfg acc box
     = (if inside_zone (zone cfg) (center (xyxy box))
        then (acc ++ [hit_of round box])%list else acc).
Proof.
  intros Hnan. apply is_nan_spec in Hnan.
  assert (Hlt : (conf box <? threshold cfg)%float = false).
  { rewrite FloatAxioms.ltb_spec, Hnan. reflexivity. }
  unfold qualifies, visit_box. rewrite Hlt. split; reflexivity.
Qed.

(** X7. The filter works box by box: the hits of two detector outputs put
    end to end are the hits of the first followed by the hits of the
    second, and the grouping of the boxes into results does not matter. *)
Theorem detections_in_zone_app (cfg : Config) (r1 r2 : list (list Box)) :
  detections_in_zone round cfg (r1 ++ r2)
  = (detections_in_zone round cfg r1 ++ detections_in_zone round cfg r2)%list
  /\ detections_in_zone round cfg r1
     = detections_in_zone round cfg [List.concat r1].
Proof.
  rewrite !detections_in_zone_filter. split.
  - now rewrite concat_app, filter_app, map_app.
  - cbn [List.concat]. now rewrite app_nil_r.
Qed.




Lemma filter_release_none (out : list effect) :
  existsb is_release out = false -> filter is_release out = [].
Proof.
  induction out as [|e out IH]; [reflexivity|]. cbn.
  destruct (is_release e); [discriminate | exact IH].
Qed.

(** X9. The camera is released exactly once when the loop is left by
    [break], as the last effect but one, and not at all when the program
    crashed or is still running. *)
Theorem camera_released_iff_exited (ticks : list Tick) :
  let '(_, out, s) := main round ticks in
  List.length (filter is_release out) = (if is_exited s then 1 else 0)%nat
  /\ (s = Exited ->
      exists before,
        out = (before ++ [Release; DestroyAllWindows])%list
        /\ filter is_release before = []).
Proof.
  unfold main. destruct (run round initial ticks) as [[st out] s] eqn:E.
  pose proof (filter_release_none _ (run_no_release round _ _ _ _ _ E)) as Hnone.
  destruct s; cbn [is_exited].
  - split; [now rewrite Hnone | discriminate].
  - split.
    + rewrite filter_app, length_app, Hnone. reflexivity.
    + intros _. now exists out.
  - split; [now rewrite Hnone | discriminate].
Qed.






Lemma all_chars_app (p : ascii -> bool) (a b : string) :
  all_chars p (a ++ b) = all_chars p a && all_chars p b.
Proof. induction a as [|c a IH]; cbn; [reflexivity | now rewrite IH, andb_assoc]. Qed.

Lemma printable_escape_char (c : ascii) : all_chars printable (escape_char c) = true.
Proof. destruct c as [[|] [|] [|] [|] [|] [|] [|] [|]]; reflexivity. Qed.

Lemma printable_quote (s : string) : all_chars printable (quote s) = true.
Proof.
  unfold quote. cbn [all_chars]. rewrite all_chars_app. cbn.
  rewrite andb_true_r.
  induction s as [|c s IH]; cbn [escape]; [reflexivity|].
  now rewrite all_chars_app, printable_escape_char, IH.
Qed.

Lemma number_char_printable (c : ascii) : is_number_char c = true -> printable c = true.
Proof. destruct c as [[|] [|] [|] [|] [|] [|] [|] [|]]; intros H; try discriminate H; reflexivity. Qed.

Lemma printable_int_text (z : Z) : all_chars printable (int_text z) = true.
Proof.
  destruct (int_text_shape z) as (c & r & _ & _ & Hall & _).
  exact (all_chars_weaken _ _ _ number_char_printable Hall).
Qed.

Lemma printable_float_text (x : float) :
  float_text_ok float_repr float_of_string x ->
  all_chars printable (float_repr x) = true.
Proof.
  intros (Hall & _ & _). exact (all_chars_weaken _ _ _ number_char_printable Hall).
Qed.

Lemma printable_concat (sep : string) (l : list string) :
  all_chars printable sep = true ->
  Forall (fun s => all_chars printable s = true) l ->
  all_chars printable (concat sep l) = true.
Proof.
  intros Hsep Hl. induction Hl as [|s l Hs Hl IH]; [reflexivity|].
  destruct l as [|s' l]; [exact Hs|].
  change (concat sep (s :: s' :: l)) with (s ++ sep ++ concat sep (s' :: l)).
  now rewrite !all_chars_app, Hs, Hsep, IH.
Qed.

Lemma printable_object (d : ZoneHit) :
  float_text_ok float_repr float_of_string (confidence d) ->
  all_chars printable (dumps float_repr (object_json d)) = true.
Proof.
  intros Hok. unfold object_json, coords_json.
  destruct (coords d) as [[[x1 y1] x2] y2].
  cbn [dumps map concat fst snd].
  repeat (rewrite all_chars_app || rewrite printable_quote
          || rewrite printable_int_text || rewrite (printable_float_text _ Hok)
          || cbn [all_chars]).
  reflexivity.
Qed.

Lemma printable_enter_alert (t : datetime) (hits : list ZoneHit) :
  Forall (fun d => float_text_ok float_repr float_of_string (confidence d)) hits ->
  all_chars printable (dumps float_repr (enter_alert t hits)) = true.
Proof.
  intros Hok. unfold enter_alert.
  assert (Hobjs : all_chars printable (dumps float_repr (JArray (map object_json hits)))
                  = true).
  { cbn [dumps]. rewrite !all_chars_app, printable_concat; [reflexivity | reflexivity |].
    rewrite map_map. apply Forall_map.
    eapply Forall_impl; [|exact Hok]. intros d Hd. now apply printable_object. }
  remember (JArray (map object_json hits)) as objs.
  cbn [dumps map concat fst snd].
  repeat (rewrite all_chars_app || rewrite printable_quote || rewrite Hobjs
          || cbn [all_chars]).
  reflexivity.
Qed.

Lemma printable_exit_event (t : datetime) :
  all_chars printable (dumps float_repr (exit_event t)) = true.
Proof.
  unfold exit_event. cbn [dumps map concat fst snd].
  repeat (rewrite all_chars_app || rewrite printable_quote || cbn [all_chars]).
  reflexivity.
Qed.

(** The records of a pass are the dictionaries [alert] and [exit_event]. *)
Lemma logged_record (st st' : State) (tk : Tick)
      (out : list effect) (c : control) (r : json) :
  loop_body round st tk = (st', out, c) ->
  In (LogAppend r) out ->
  (r = enter_alert (now tk)
         (map (hit_of round) (filter (qualifies settings) (List.concat (results tk))))
   /\ kind_of r = Some ENTER /\ alert_active st = false /\ alert_active st' = true)
  \/ (r = exit_event (now tk)
      /\ kind_of r = Some LEAVE /\ alert_active st = true /\ alert_active st' = false).
Proof.
  intros Hpass Hin. apply in_records in Hin.
  destruct (ret tk) eqn:Hret.
  - rewrite (loop_body_read round st tk Hret) in Hpass. cbv zeta in Hpass.
    rewrite detections_in_zone_filter in Hpass.
    destruct (map (hit_of round) _) as [|h hs] eqn:E;
      destruct (alert_active st), (log_ok tk); injection Hpass as <- <- <-;
      cbn in Hin; try (now destruct Hin); destruct Hin as [<-|[]].
    + right. repeat split.
    + left. repeat split.
  - rewrite (loop_body_failed_read round st tk Hret) in Hpass.
    injection Hpass as <- <- <-. destruct Hin.
Qed.


(** X13. Every record takes one line of the log: its text is made of the
    characters from space to tilde only, whatever the labels hold, and the
    line feed that ends it is the only one. *)
Theorem log_lines_are_single_lines (st st' : State) (tk : Tick)
        (out : list effect) (c : control) (r : json) :
  loop_body round st tk = (st', out, c) ->
  In (LogAppend r) out ->
  Forall (fun box => float_text_ok float_repr float_of_string (round (conf box) 2))
         (filter (qualifies settings) (List.concat (results tk))) ->
  exists body,
    log_line float_repr r = body ++ String newline ""
    /\ all_chars printable body = true
    /\ all_chars (fun ch => negb (ch =? newline)%char) body = true.
Proof.
  intros Hpass Hin Hok. exists (dumps float_repr r).
  assert (Hprint : all_chars printable (dumps float_repr r) = true).
  { destruct (logged_record _ _ _ _ _ _ Hpass Hin) as [(-> & _)|(-> & _)].
    - apply printable_enter_alert. apply Forall_map. exact Hok.
    - apply printable_exit_event. }
  split; [reflexivity|]. split; [exact Hprint|].
  eapply all_chars_weaken; [|exact Hprint].
  intros ch. destruct ch as [[|] [|] [|] [|] [|] [|] [|] [|]]; intros H;
    try discriminate H; reflexivity.
Qed.

End Further.

(** ** The further properties on the sample frames *)

(** A monitor 600 wide is too narrow for the paste. *)
Lemma X1_narrow_monitor :
  0 <= 600 /\ 0 <= 800 /\ screen_paste_ok 600 800 <> true.
Proof.
  split; [discriminate|]. split; [discriminate|].
  intros H.
  apply (screen_paste_needs_a_large_monitor 600 800) in H; [|discriminate|discriminate].
  destruct H as [H _]. now apply H.
Defined.

(** A window of 1000 by 700. *)
Lemma X2_large_window :
  640 <= 1000 /\ 480 <= 700
  /\ exists b,
       letterbox 1000 700 = Some b
       /\ canvas_w b = 1000 /\ canvas_h b = 700
       /\ disp_w b = 640 /\ disp_h b = 480
       /\ 0 <= x0 b /\ 0 <= y0 b
       /\ 0 <= (1000 - (x0 b + 640)) - x0 b <= 1
       /\ 0 <= (700 - (y0 b + 480)) - y0 b <= 1
       /\ letterbox_paste_ok b = true.
Proof.
  split; [discriminate|]. split; [discriminate|].
  apply (letterbox_of_a_large_window 1000 700); discriminate.
Defined.

(** A window of 320 by 100. *)
Lemma X3_small_window :
  320 < 640 /\ 100 < 480
  /\ exists b,
       letterbox 320 100 = Some b
       /\ canvas_w b = Z.max 320 1 /\ canvas_h b = Z.max 100 1
       /\ inside_canvas b = true
       /\ letterbox_paste_ok b = true.
Proof.
  split; [reflexivity|]. split; [reflexivity|].
  apply (preview_fits_a_small_window 320 100); reflexivity.
Defined.

Lemma well_formed_noon : well_formed noon.
Proof. unfold well_formed, noon. cbn. lia. Defined.

Lemma well_formed_next_noon : well_formed next_noon.
Proof. unfold well_formed, next_noon. cbn. lia. Defined.


(** The snapshots of two days at the same time of day share a name. *)
Lemma X5_snapshots_of_two_days :
  well_formed noon /\ well_formed next_noon
  /\ snapshot_name noon = snapshot_name next_noon.
Proof.
  split; [exact well_formed_noon|]. split; [exact well_formed_next_noon|].
  apply (snapshot_name_is_the_time_of_day noon next_noon
           well_formed_noon well_formed_next_noon).
  repeat split.
Defined.

(** The box with the NaN confidence is kept. *)
Lemma X6_nan_box_is_kept :
  is_nan (conf nan_box) = true
  /\ qualifies settings nan_box = inside_zone (zone settings) (center (xyxy nan_box))
  /\ visit_box round_decimal settings [] nan_box
     = (if inside_zone (zone settings) (center (xyxy nan_box))
        then ([] ++ [hit_of round_decimal nan_box])%list else []).
Proof.
  split; [reflexivity|].
  apply (nan_confidence_passes_the_threshold round_decimal settings [] nan_box).
  reflexivity.
Defined.



(** The camera fails after the person was logged. *)
Lemma X9_release_after_failed_read :
  snd (main round_decimal [person_tick; failed_read]) = Exited
  /\ (let '(_, out, s) := main round_decimal [person_tick; failed_read] in
      List.length (filter is_release out) = (if is_exited s then 1 else 0)%nat
      /\ (s = Exited ->
          exists before,
            out = (before ++ [Release; DestroyAllWindows])%list
            /\ filter is_release before = [])).
Proof.
  split; [reflexivity|].
  exact (camera_released_iff_exited round_decimal [person_tick; failed_read]).
Defined.




(** The line of the person. *)
Lemma X13_line_of_the_person :
  loop_body round_decimal initial person_tick
  = (mkState true true false,
     [LogAppend (enter_alert noon [hit_of round_decimal person]);
      ImWrite "redzone_capture_120007.jpg";
      Print "[ALERT] Object entered red zone! Snapshot saved: redzone_capture_120007.jpg"],
     Next)
  /\ Forall (fun box => float_text_ok repr_decimal float_of_decimal
                          (round_decimal (conf box) 2))
            (filter (qualifies settings) (List.concat (results person_tick)))
  /\ exists body,
       log_line repr_decimal (enter_alert noon [hit_of round_decimal person])
       = body ++ String newline ""
       /\ all_chars printable body = true
       /\ all_chars (fun ch => negb (ch =? newline)%char) body = true.
Proof.
  assert (Hpass : loop_body round_decimal initial person_tick
                  = (mkState true true false,
                     [LogAppend (enter_alert noon [hit_of round_decimal person]);
                      ImWrite "redzone_capture_120007.jpg";
                      Print "[ALERT] Object entered red zone! Snapshot saved: redzone_capture_120007.jpg"],
                     Next)) by (vm_compute; reflexivity).
  assert (Hok : Forall (fun box => float_text_ok repr_decimal float_of_decimal
                                     (round_decimal (conf box) 2))
                       (filter (qualifies settings) (List.concat (results person_tick)))).
  { constructor; [|constructor]. repeat split; vm_compute; reflexivity. }
  split; [exact Hpass|]. split; [exact Hok|].
  exact (log_lines_are_single_lines round_decimal repr_decimal float_of_decimal
           _ _ _ _ _ _ Hpass (or_introl eq_refl) Hok).
Defined.
